(** * YourGPT web SDK: the React provider, its lifecycle and the action registry

    A shallow embedding of [src/react/components/YourGPTProvider.tsx].

    The component is a function of React hooks, so its behaviour is that of
    the hook runtime driving it.  The embedding keeps the two apart:

    - the component's own code (the hook cells, the two effects, the
      asynchronous [initializeSDK] with its [try]/[catch]/[finally], the
      cleanup closure, [useYourGPT]) is translated statement by statement;
    - the runtime is a small deterministic machine: a render takes a
      snapshot of the cells, closures created during a render read that
      snapshot, setters write the cells and are ignored once the component
      is unmounted, an effect is re-run (after the cleanup of its previous
      run) when one of its dependencies changed, and a promise settles at
      most once, at a moment chosen by the environment.

    Setters called in one task are applied together and followed by a
    render; since [sdk] is not a dependency of the second effect, rendering
    after each setter instead would run the same effects.

    The external widget ([YourGPT.init], the handle's [on] and [getState])
    is not part of the sources; it is modelled as an event emitter on a
    store of handle objects, together with a log of every call that crosses
    the boundary.  The handle object is shared: the provider writes its
    [_unsubscribeStateChange] property and the cleanup reads it back. *)

From stdpp Require Import gmap strings list sorting.

(** ** Values of the host language *)

(** Modelled from the spec: the error class of the SDK, declared in the
    [types] module, which is not among the sources.  The provider only
    constructs it from a message, as in [new YourGPTError(String(err))]. *)
Record YourGPTError := mkYourGPTError { message : string }.

(** What a [throw] can carry.  [JsError name msg] is a built-in [Error]
    object, [JsYourGPTError] an instance of the SDK's own class. *)
Inductive JsValue :=
| JsUndefined
| JsNull
| JsBool (b : bool)
| JsString (s : string)
| JsObject
| JsError (name msg : string)
| JsYourGPTError (e : YourGPTError).

(** [js_String v] is [String(v)]: the coercion applied to a foreign thrown value.  For an
    error object this is [Error.prototype.toString]. *)
Definition js_String (v : JsValue) : string :=
  match v with
  | JsUndefined => "undefined"
  | JsNull => "null"
  | JsBool true => "true"
  | JsBool false => "false"
  | JsString s => s
  | JsObject => "[object Object]"
  | JsError name msg =>
      if decide (name = "") then msg
      else if decide (msg = "") then name
      else name +:+ ": " +:+ msg
  | JsYourGPTError e => message e
  end.

(** [err instanceof YourGPTError] *)
Definition instanceof_YourGPTError (v : JsValue) : bool :=
  match v with JsYourGPTError _ => true | _ => false end.

(** Modelled from the spec: the snapshot mirrored from the widget, declared
    in the [types] module; its fields are those of the literal the provider
    passes to [useState]. *)
Record WidgetState := mkWidgetState {
  isOpen : bool;
  isVisible : bool;
  isConnected : bool;
  isLoaded : bool;
  messageCount : Z;
  connectionRetries : Z
}.

(** Objects are compared by reference ([Object.is]) in dependency arrays:
    a configuration object is its reference, a handle is the address of its
    object in the widget's store. *)
Definition YourGPTConfig := nat.
Definition YourGPTSDK := nat.

(** A callback prop: its reference, and whether a call returns ([None]) or
    throws. *)
Record Callback := mkCallback { cb_ref : nat; cb_throws : option JsValue }.

#[global] Instance YourGPTError_eq_dec : EqDecision YourGPTError.
Proof. solve_decision. Defined.
#[global] Instance JsValue_eq_dec : EqDecision JsValue.
Proof. solve_decision. Defined.
#[global] Instance WidgetState_eq_dec : EqDecision WidgetState.
Proof. solve_decision. Defined.
#[global] Instance Callback_eq_dec : EqDecision Callback.
Proof. solve_decision. Defined.

(** ** The context value and the hook *)

Record YourGPTContextValue := mkContext {
  sdk : option YourGPTSDK;
  isInitialized : bool;
  isLoading : bool;
  error : option YourGPTError;
  state : WidgetState
}.

#[global] Instance YourGPTContextValue_eq_dec : EqDecision YourGPTContextValue.
Proof. solve_decision. Defined.

Record YourGPTProviderProps := mkProps {
  config : YourGPTConfig;
  onError : option Callback;
  onInitialized : option Callback
}.

#[global] Instance YourGPTProviderProps_eq_dec : EqDecision YourGPTProviderProps.
Proof. solve_decision. Defined.

(** A computation that returns or throws. *)
Inductive Completion (A : Type) :=
| Return (a : A)
| Throw (e : YourGPTError).
Arguments Return {A} a.
Arguments Throw {A} e.

(** [useYourGPT], given what [useContext(YourGPTContext)] returned. *)
Definition useYourGPT (context : option YourGPTContextValue)
  : Completion YourGPTContextValue :=
  match context with
  | None => Throw (mkYourGPTError "useYourGPT must be used within a YourGPTProvider")
  | Some c => Return c
  end.

(** ** The external widget *)

(** Calls that cross the boundary of the component, in the order made. *)
Inductive Call :=
| CallInit (cfg : YourGPTConfig)
| CallOn (inst : YourGPTSDK) (listener : nat)
| CallGetState (inst : YourGPTSDK)
| CallUnsubscribe (inst : YourGPTSDK) (listener : nat)
| CallOnInitialized (cb : Callback) (inst : YourGPTSDK)
| CallOnError (cb : Callback) (e : YourGPTError)
| UnhandledRejection (v : JsValue).

#[global] Instance Call_eq_dec : EqDecision Call.
Proof. solve_decision. Defined.

(** A handle object.  [listeners] are the [stateChange] listeners the
    provider attached and has not removed; [_unsubscribeStateChange] is the
    property the provider writes on the handle: the closure returned by
    [on], identified by the listener it removes. *)
Record SdkObject := mkSdkObject {
  listeners : list nat;
  snapshot : WidgetState;
  _unsubscribeStateChange : option nat
}.

Record Widget := mkWidget {
  sdks : gmap nat SdkObject;
  next_listener : nat;
  calls : list Call
}.

(** Modelled from the spec: the widget's own snapshot before it has emitted
    anything.  The core module that owns it is not among the sources; a
    [StateChange] event moves the snapshot anywhere. *)
Definition widget_idle_state : WidgetState :=
  mkWidgetState false true false false 0 0.

Definition fresh_sdk : SdkObject := mkSdkObject [] widget_idle_state None.

Definition sdk_obj (w : Widget) (inst : YourGPTSDK) : SdkObject :=
  default fresh_sdk (sdks w !! inst).

Definition put_sdk (inst : YourGPTSDK) (o : SdkObject) (w : Widget) : Widget :=
  mkWidget (<[inst := o]> (sdks w)) (next_listener w) (calls w).

Definition log (c : Call) (w : Widget) : Widget :=
  mkWidget (sdks w) (next_listener w) (calls w ++ [c]).

Definition fresh_listener (w : Widget) : Widget :=
  mkWidget (sdks w) (S (next_listener w)) (calls w).

(** Modelled from the spec: [on(handle, callback) -> unsubscribe] of the
    initialization shim, whose module is not among the sources.  The
    listener is appended to the handle's list and the returned closure is
    named by the listener it will remove. *)
Definition sdk_on (inst : YourGPTSDK) (w : Widget) : nat * Widget :=
  let l := next_listener w in
  let o := sdk_obj w inst in
  let o' := mkSdkObject (listeners o ++ [l]) (snapshot o)
              (_unsubscribeStateChange o) in
  (l, log (CallOn inst l) (fresh_listener (put_sdk inst o' w))).

(** Modelled from the spec: calling the closure returned by [on] removes
    that listener, and nothing else, from the handle. *)
Definition sdk_unsubscribe (inst : YourGPTSDK) (l : nat) (w : Widget) : Widget :=
  let o := sdk_obj w inst in
  log (CallUnsubscribe inst l)
      (put_sdk inst (mkSdkObject (filter (λ x, x ≠ l) (listeners o)) (snapshot o)
                                 (_unsubscribeStateChange o)) w).

(** Modelled from the spec: [getState()] of the handle returns the
    widget's current snapshot. *)
Definition sdk_getState (inst : YourGPTSDK) (w : Widget) : WidgetState * Widget :=
  (snapshot (sdk_obj w inst), log (CallGetState inst) w).

(** [(sdkInstance as any)._unsubscribeStateChange = unsubscribe] *)
Definition store_unsubscribe (inst : YourGPTSDK) (l : nat) (w : Widget) : Widget :=
  let o := sdk_obj w inst in
  put_sdk inst (mkSdkObject (listeners o) (snapshot o) (Some l)) w.

(** Modelled from the spec: the widget moves to the snapshot [ws], which is
    the payload of the [stateChange] event it emits. *)
Definition widget_emit (inst : YourGPTSDK) (ws : WidgetState) (w : Widget) : Widget :=
  let o := sdk_obj w inst in
  put_sdk inst (mkSdkObject (listeners o) ws (_unsubscribeStateChange o)) w.

Definition init_calls (w : Widget) : list YourGPTConfig :=
  omap (λ c, match c with CallInit cfg => Some cfg | _ => None end) (calls w).

Definition on_calls (w : Widget) : list (YourGPTSDK * nat) :=
  omap (λ c, match c with CallOn i l => Some (i, l) | _ => None end) (calls w).

Definition unsubscribe_calls (w : Widget) : list (YourGPTSDK * nat) :=
  omap (λ c, match c with CallUnsubscribe i l => Some (i, l) | _ => None end) (calls w).

Definition onError_calls (w : Widget) : list (Callback * YourGPTError) :=
  omap (λ c, match c with CallOnError cb e => Some (cb, e) | _ => None end) (calls w).

(** ** The provider component *)

(** Where the component function runs: in a browser, where effects are
    flushed after each commit, or in a server render, where they never are. *)
Inductive Env := Client | Server.

Inductive Phase := NotMounted | Mounted | Unmounted.

#[global] Instance Env_eq_dec : EqDecision Env.
Proof. solve_decision. Defined.
#[global] Instance Phase_eq_dec : EqDecision Phase.
Proof. solve_decision. Defined.

(** The six [useState] cells: [isBrowser] and the five that make up the
    context [value]. *)
Record HookState := mkHooks { isBrowser : bool; value : YourGPTContextValue }.

#[global] Instance HookState_eq_dec : EqDecision HookState.
Proof. solve_decision. Defined.

(** The initial arguments of the [useState] calls. *)
Definition initial_state : WidgetState :=
  {| isOpen := false; isVisible := true; isConnected := false;
     isLoaded := false; messageCount := 0; connectionRetries := 0 |}.

Definition initial_hooks : HookState :=
  mkHooks false (mkContext None false false None initial_state).

(** The dependency array [[config, onError, onInitialized, isBrowser]]. *)
Definition Deps : Type :=
  YourGPTConfig * option Callback * option Callback * bool.

(** A call of [initializeSDK] suspended at [await YourGPT.init(config)],
    with the props its closure captured. *)
Record Run := mkRun {
  run_id : nat;
  run_config : YourGPTConfig;
  run_onError : option Callback;
  run_onInitialized : option Callback
}.

Record Provider := mkProvider {
  env : Env;
  phase : Phase;
  props : YourGPTProviderProps;
  cells : HookState;            (* the state cells, as last written *)
  rendered : HookState;         (* the cells as read by the last render *)
  mount_effect_done : bool;     (* the [[]]-effect has run *)
  effect_deps : option Deps;    (* dependencies of the last run of the second effect *)
  effect_cleanup : option (option YourGPTSDK);
                                (* its cleanup closure: the [sdk] it captured *)
  pending : list Run;
  next_run : nat;
  widget : Widget
}.

Definition with_cells (f : HookState → HookState) (s : Provider) : Provider :=
  mkProvider (env s) (phase s) (props s) (f (cells s)) (rendered s)
    (mount_effect_done s) (effect_deps s) (effect_cleanup s)
    (pending s) (next_run s) (widget s).

Definition with_widget (f : Widget → Widget) (s : Provider) : Provider :=
  mkProvider (env s) (phase s) (props s) (cells s) (rendered s)
    (mount_effect_done s) (effect_deps s) (effect_cleanup s)
    (pending s) (next_run s) (f (widget s)).

Definition with_effect (d : option Deps) (c : option (option YourGPTSDK))
    (s : Provider) : Provider :=
  mkProvider (env s) (phase s) (props s) (cells s) (rendered s)
    (mount_effect_done s) d c (pending s) (next_run s) (widget s).

Definition with_pending (l : list Run) (n : nat) (s : Provider) : Provider :=
  mkProvider (env s) (phase s) (props s) (cells s) (rendered s)
    (mount_effect_done s) (effect_deps s) (effect_cleanup s) l n (widget s).

(** A state setter: writes the cell of a mounted component, does nothing
    after unmount. *)
Definition set_cell (f : HookState → HookState) (s : Provider) : Provider :=
  match phase s with
  | Mounted => with_cells f s
  | _ => s
  end.

Definition on_value (f : YourGPTContextValue → YourGPTContextValue)
    (h : HookState) : HookState :=
  mkHooks (isBrowser h) (f (value h)).

Definition setIsBrowser (b : bool) : Provider → Provider :=
  set_cell (λ h, mkHooks b (value h)).
Definition setSdk (v : option YourGPTSDK) : Provider → Provider :=
  set_cell (on_value (λ c,
    mkContext v (isInitialized c) (isLoading c) (error c) (state c))).
Definition setIsInitialized (b : bool) : Provider → Provider :=
  set_cell (on_value (λ c,
    mkContext (sdk c) b (isLoading c) (error c) (state c))).
Definition setIsLoading (b : bool) : Provider → Provider :=
  set_cell (on_value (λ c,
    mkContext (sdk c) (isInitialized c) b (error c) (state c))).
Definition setError (e : option YourGPTError) : Provider → Provider :=
  set_cell (on_value (λ c,
    mkContext (sdk c) (isInitialized c) (isLoading c) e (state c))).
Definition setState (ws : WidgetState) : Provider → Provider :=
  set_cell (on_value (λ c,
    mkContext (sdk c) (isInitialized c) (isLoading c) (error c) ws)).

(** *** [initializeSDK] *)

(** Up to the [await]: the two setters and the call of [YourGPT.init]. *)
Definition initializeSDK_begin (s : Provider) : Provider :=
  let s := setIsLoading true s in
  let s := setError None s in
  let r := mkRun (next_run s) (config (props s)) (onError (props s))
                 (onInitialized (props s)) in
  with_pending (pending s ++ [r]) (S (next_run s))
    (with_widget (log (CallInit (config (props s)))) s).

(** [finally { setIsLoading(false) }] *)
Definition initializeSDK_finally (s : Provider) : Provider :=
  setIsLoading false s.

(** [err instanceof YourGPTError ? err : new YourGPTError(String(err))] *)
Definition sdkError_of (err : JsValue) : YourGPTError :=
  match err with
  | JsYourGPTError e => e
  | _ => mkYourGPTError (js_String err)
  end.

(** [catch (err) { ... }], followed by the [finally] block.  When [onError]
    itself throws, the [finally] block still runs and the promise returned
    by [initializeSDK], which nobody awaits, rejects. *)
Definition initializeSDK_catch (r : Run) (err : JsValue) (s : Provider) : Provider :=
  let sdkError := sdkError_of err in
  let s := setError (Some sdkError) s in
  match run_onError r with
  | Some cb =>
      let s := with_widget (log (CallOnError cb sdkError)) s in
      let s := initializeSDK_finally s in
      match cb_throws cb with
      | Some v => with_widget (log (UnhandledRejection v)) s
      | None => s
      end
  | None => initializeSDK_finally s
  end.

(** The [try] block after [YourGPT.init] resolved with [sdkInstance]. *)
Definition initializeSDK_resolved (r : Run) (sdkInstance : YourGPTSDK)
    (s : Provider) : Provider :=
  let '(unsubscribe, w) := sdk_on sdkInstance (widget s) in
  let s := with_widget (λ _, w) s in
  let s := setSdk (Some sdkInstance) s in
  let s := setIsInitialized true s in
  let '(st, w) := sdk_getState sdkInstance (widget s) in
  let s := with_widget (λ _, w) s in
  let s := setState st s in
  let s := with_widget (store_unsubscribe sdkInstance unsubscribe) s in
  match run_onInitialized r with
  | Some cb =>
      let s := with_widget (log (CallOnInitialized cb sdkInstance)) s in
      match cb_throws cb with
      | Some v => initializeSDK_catch r v s
      | None => initializeSDK_finally s
      end
  | None => initializeSDK_finally s
  end.

(** *** The effects *)

(** The cleanup returned by the second effect.  [c] is the value of [sdk]
    in the render that created the closure; the property is read from the
    handle object when the cleanup runs. *)
Definition cleanup (c : option YourGPTSDK) (s : Provider) : Provider :=
  match c with
  | Some inst =>
      match _unsubscribeStateChange (sdk_obj (widget s) inst) with
      | Some l => with_widget (sdk_unsubscribe inst l) s
      | None => s
      end
  | None => s
  end.

Definition run_cleanup (s : Provider) : Provider :=
  match effect_cleanup s with
  | Some c => cleanup c s
  | None => s
  end.

Definition deps_of (s : Provider) : Deps :=
  (config (props s), onError (props s), onInitialized (props s),
   isBrowser (rendered s)).

(** The body of the second effect, run in the closure of the last render:
    [if (!isBrowser) return; ... initializeSDK(); return () => {...}]. *)
Definition init_effect (s : Provider) : Provider :=
  if negb (isBrowser (rendered s)) then
    with_effect (Some (deps_of s)) None s
  else
    let c := sdk (value (rendered s)) in
    with_effect (Some (deps_of s)) (Some c) (initializeSDK_begin s).

(** One render and commit.  The function body reads the cells; in a browser
    the [[]]-effect runs after the first commit, and the second effect runs
    whenever its dependency array differs from that of its previous run,
    after the cleanup that run returned. *)
Definition render (s : Provider) : Provider :=
  match phase s with
  | Mounted =>
      let s := mkProvider (env s) (phase s) (props s) (cells s) (cells s)
                 (mount_effect_done s) (effect_deps s) (effect_cleanup s)
                 (pending s) (next_run s) (widget s) in
      match env s with
      | Server => s
      | Client =>
          let s :=
            if mount_effect_done s then s
            else setIsBrowser true
                   (mkProvider (env s) (phase s) (props s) (cells s) (rendered s)
                      true (effect_deps s) (effect_cleanup s)
                      (pending s) (next_run s) (widget s)) in
          if decide (effect_deps s = Some (deps_of s)) then s
          else init_effect (run_cleanup s)
      end
  | _ => s
  end.

(** Renders are repeated while a setter changed a cell since the last one. *)
Fixpoint settle (fuel : nat) (s : Provider) : Provider :=
  match fuel with
  | 0 => s
  | S n => if decide (cells s = rendered s) then s else settle n (render s)
  end.

Definition render_fuel : nat := 3.

(** *** The life of one provider *)

(** One provider instance is followed from before its mount to after its
    unmount; mounting the component again would create another instance,
    with cells of its own. *)
Inductive Event :=
| Mount (p : YourGPTProviderProps)          (* the host renders the provider *)
| Rerender (p : YourGPTProviderProps)       (* the host renders it again *)
| InitResolve (run : nat) (sdkInstance : YourGPTSDK)
                                            (* a pending [YourGPT.init] resolves *)
| InitReject (run : nat) (err : JsValue)    (* a pending [YourGPT.init] throws *)
| StateChange (inst : YourGPTSDK) (ws : WidgetState)
                                            (* the widget emits [stateChange] *)
| Unmount.                                  (* the host removes the provider *)

Definition initial (e : Env) : Provider :=
  mkProvider e NotMounted (mkProps 0 None None) initial_hooks initial_hooks
    false None None [] 0 (mkWidget ∅ 0 []).

Definition find_run (id : nat) (s : Provider) : option Run :=
  head (filter (λ r, run_id r = id) (pending s)).

Definition drop_run (id : nat) (s : Provider) : Provider :=
  with_pending (filter (λ r, run_id r ≠ id) (pending s)) (next_run s) s.

Definition with_props (p : YourGPTProviderProps) (ph : Phase) (s : Provider)
  : Provider :=
  mkProvider (env s) ph p (cells s) (rendered s)
    (mount_effect_done s) (effect_deps s) (effect_cleanup s)
    (pending s) (next_run s) (widget s).

(** The listener registered by [initializeSDK]:
    [(newState) => { setState(newState) }]. *)
Definition listener (newState : WidgetState) (s : Provider) : Provider :=
  setState newState s.

Definition step (s : Provider) (ev : Event) : Provider :=
  match ev with
  | Mount p =>
      match phase s with
      | NotMounted => settle render_fuel (render (with_props p Mounted s))
      | _ => s
      end
  | Rerender p =>
      match phase s with
      | Mounted => settle render_fuel (render (with_props p Mounted s))
      | _ => s
      end
  | InitResolve id inst =>
      match find_run id s with
      | Some r => settle render_fuel (initializeSDK_resolved r inst (drop_run id s))
      | None => s
      end
  | InitReject id err =>
      match find_run id s with
      | Some r => settle render_fuel (initializeSDK_catch r err (drop_run id s))
      | None => s
      end
  | StateChange inst ws =>
      let s := with_widget (widget_emit inst ws) s in
      settle render_fuel
        (foldl (λ acc _, listener ws acc) s (listeners (sdk_obj (widget s) inst)))
  | Unmount =>
      match phase s with
      | Mounted =>
          let s := match env s with Client => run_cleanup s | Server => s end in
          mkProvider (env s) Unmounted (props s) (cells s) (rendered s)
            (mount_effect_done s) (effect_deps s) None
            (pending s) (next_run s) (widget s)
      | _ => s
      end
  end.

Definition run_events (s : Provider) (evs : list Event) : Provider :=
  foldl step s evs.

(** What [useContext(YourGPTContext)] returns below the provider: the
    [value] of the last render, or the default [null] without a provider. *)
Definition useContext (s : Provider) : option YourGPTContextValue :=
  match phase s with
  | Mounted => Some (value (rendered s))
  | _ => None
  end.

Definition reachable (s : Provider) : Prop :=
  ∃ e evs, s = run_events (initial e) evs.

(** The render that only refreshes the snapshot. *)
Definition sync (s : Provider) : Provider :=
  mkProvider (env s) (phase s) (props s) (cells s) (cells s)
    (mount_effect_done s) (effect_deps s) (effect_cleanup s)
    (pending s) (next_run s) (widget s).

(** The calls made to the host's callbacks by the [catch] block and by the
    [try] block, in order. *)
Definition catch_calls (r : Run) (err : JsValue) : list Call :=
  match run_onError r with
  | Some cb =>
      CallOnError cb (sdkError_of err) ::
      match cb_throws cb with
      | Some v => [UnhandledRejection v]
      | None => []
      end
  | None => []
  end.

Definition resolved_calls (r : Run) (inst : YourGPTSDK) : list Call :=
  match run_onInitialized r with
  | Some cb =>
      CallOnInitialized cb inst ::
      match cb_throws cb with
      | Some v => catch_calls r v
      | None => []
      end
  | None => []
  end.

Definition logs (cs : list Call) (w : Widget) : Widget :=
  foldl (λ w c, log c w) w cs.

Definition callback_call (c : Call) : bool :=
  match c with
  | CallOnInitialized _ _ | CallOnError _ _ | UnhandledRejection _ => true
  | _ => false
  end.

(** What a continuation or a listener leaves alone: everything but the
    cells of the context value and the widget. *)
Definition frame (s : Provider) :=
  (env s, phase s, props s, rendered s, mount_effect_done s, effect_deps s,
   effect_cleanup s, pending s, next_run s, isBrowser (cells s)).

(** The context value handed to [YourGPTContext.Provider] by the last
    render. *)
Definition exposed (s : Provider) : YourGPTContextValue := value (rendered s).

(** The events that make the second effect run [initializeSDK] with the
    props [p]: the mount, and a render with props that differ in one of
    [config], [onError], [onInitialized]. *)
Inductive starts_run : Provider → Event → YourGPTProviderProps → Prop :=
| start_mount s p :
    phase s = NotMounted → starts_run s (Mount p) p
| start_rerender s p :
    phase s = Mounted → p ≠ props s → starts_run s (Rerender p) p.

(** The effects of a mounted provider have seen the current cells. *)
Definition up_to_date (s : Provider) : Prop :=
  phase s = Mounted → env s = Client →
  mount_effect_done s = true ∧
  effect_deps s = Some (config (props s), onError (props s),
                        onInitialized (props s), isBrowser (cells s)).

(** The states in which the provider rests between two events. *)
Definition settled (s : Provider) : Prop :=
  cells s = rendered s ∧
  Forall (λ r, run_id r < next_run s) (pending s) ∧
  (env s = Server →
   cells s = initial_hooks ∧ pending s = [] ∧ calls (widget s) = []) ∧
  (on_calls (widget s) = [] →
   (∀ inst, listeners (sdk_obj (widget s) inst) = []) ∧
   state (value (cells s)) = initial_state) ∧
  match phase s with
  | NotMounted =>
      cells s = initial_hooks ∧ mount_effect_done s = false ∧
      effect_deps s = None ∧ effect_cleanup s = None ∧
      pending s = [] ∧ next_run s = 0 ∧ calls (widget s) = []
  | Mounted =>
      env s = Client →
      mount_effect_done s = true ∧ isBrowser (cells s) = true ∧
      effect_deps s = Some (deps_of s) ∧ is_Some (effect_cleanup s)
  | Unmounted => effect_cleanup s = None
  end.

Definition is_state_change (ev : Event) : bool :=
  match ev with StateChange _ _ => true | _ => false end.

Definition is_resolve (ev : Event) : bool :=
  match ev with InitResolve _ _ => true | _ => false end.

Definition is_settlement (ev : Event) : bool :=
  match ev with InitResolve _ _ | InitReject _ _ => true | _ => false end.

Definition is_unmount (ev : Event) : bool :=
  match ev with Unmount => true | _ => false end.

(** [settles id ev]: the event settles the call of run [id]. *)
Definition settles (id : nat) (ev : Event) : bool :=
  match ev with
  | InitResolve i _ | InitReject i _ => bool_decide (i = id)
  | _ => false
  end.

(** [fails s ev]: at [ev] a run of [initializeSDK] ends in its [catch]
    block, which stores an error: a pending call throws, or a pending call
    resolves for a run whose [onInitialized] throws. *)
Definition fails (s : Provider) (ev : Event) : bool :=
  match ev with
  | InitReject id _ => bool_decide (is_Some (find_run id s))
  | InitResolve id _ =>
      match find_run id s with
      | Some r =>
          match run_onInitialized r with
          | Some cb => bool_decide (is_Some (cb_throws cb))
          | None => false
          end
      | None => false
      end
  | _ => false
  end.

Fixpoint no_failure (s : Provider) (evs : list Event) : bool :=
  match evs with
  | [] => true
  | ev :: evs => negb (fails s ev) && no_failure (step s ev) evs
  end.

(** [runs_cleanup s ev]: at [ev] the cleanup returned by the last run of
    the second effect is executed: a render with other props, the unmount. *)
Definition runs_cleanup (s : Provider) (ev : Event) : bool :=
  match ev with
  | Rerender p => bool_decide (p ≠ props s)
  | Unmount => true
  | _ => false
  end.

Fixpoint no_cleanup (s : Provider) (evs : list Event) : bool :=
  match evs with
  | [] => true
  | ev :: evs => negb (runs_cleanup s ev) && no_cleanup (step s ev) evs
  end.

(** The states an execution goes through, the first one included. *)
Fixpoint trace (s : Provider) (evs : list Event) : list Provider :=
  match evs with
  | [] => [s]
  | ev :: evs => s :: trace (step s ev) evs
  end.

(** ** The action registry *)

(** The registration surface behind [useAIActions] is used by the guide
    ([registerAction(name, handler)], [unregisterAction(name)]) but its
    implementation is not among the sources.  The spec describes it as a
    mapping-keyed dispatch table: a finite map from action names to
    handlers.  A handler is kept abstract. *)
Section ActionRegistry.
Context {Handler : Type}.

(** Modelled from the spec: [registerAction(name, handler)] of the missing
    [useAIActions] binds the name to the handler in the dispatch table. *)
Definition registerAction (name : string) (handler : Handler)
    (registry : gmap string Handler) : gmap string Handler :=
  <[name := handler]> registry.

(** Modelled from the spec: [unregisterAction(name)] of the missing
    [useAIActions] removes the name from the dispatch table. *)
Definition unregisterAction (name : string)
    (registry : gmap string Handler) : gmap string Handler :=
  delete name registry.

End ActionRegistry.

(** ** The guide's todo application *)

(** The guide [examples/next-playground/AI_ACTIONS_GUIDE.md] shows the code
    of a todo application driven by the registry: the effect of [TodoApp]
    that registers the actions, the lookup of a todo, the filters and the
    sort.  The snippets are embedded as they are printed. *)
Module Todos.

Local Open Scope Z_scope.

(** A todo, with the fields the snippets read.  [status] and [priority] are
    the strings they are at run time; [createdAt] is the time value
    [new Date(t.createdAt).getTime()], where [None] is the [NaN] of an
    invalid date. *)
Record Todo := mkTodo {
  id : string;
  title : string;
  description : option string;
  tags : option (list string);
  status : string;
  priority : string;
  createdAt : option Z
}.

#[global] Instance Todo_eq_dec : EqDecision Todo.
Proof. solve_decision. Defined.

(** The truth value of an optional string argument in a condition:
    [undefined] and the empty string are falsy. *)
Definition truthy (arg : option string) : bool :=
  match arg with
  | Some s => bool_decide (s ≠ EmptyString)
  | None => false
  end.

(** [s.includes(needle)] *)
Fixpoint includes (s needle : string) : bool :=
  String.prefix needle s ||
  match s with
  | EmptyString => false
  | String _ s' => includes s' needle
  end.

(** *** The effect of [TodoApp] *)

Section Effect.
Context {Handler : Type}.

(** [Object.entries(todoActions).forEach(([name, handler]) =>
    aiActions.registerAction(name, handler))]; [todoActions] is the list of
    the object's entries in the order of the literal. *)
Definition TodoApp_effect (todoActions : list (string * Handler))
    (registry : gmap string Handler) : gmap string Handler :=
  foldl (λ registry entry, registerAction entry.1 entry.2 registry)
        registry todoActions.

(** The cleanup: [Object.keys(todoActions).forEach(actionName =>
    aiActions.unregisterAction(actionName))]. *)
Definition TodoApp_cleanup (todoActions : list (string * Handler))
    (registry : gmap string Handler) : gmap string Handler :=
  foldl (λ registry actionName, unregisterAction actionName registry)
        registry (todoActions.*1).

End Effect.

Section Text.
(** [String.prototype.toLowerCase] follows the Unicode case mapping and is
    kept abstract. *)
Variable toLowerCase : string → string.

(** *** Flexible lookup *)

(** [let todo = todos.find(t => t.id === todoId);
    if (!todo && title) todo = todos.find(t =>
      t.title.toLowerCase().includes(title.toLowerCase()));] *)
Definition findTodo (todos : list Todo) (todoId title' : option string)
    : option Todo :=
  let todo := find (λ t, bool_decide (Some (id t) = todoId)) todos in
  if bool_decide (todo = None) && truthy title' then
    find (λ t, includes (toLowerCase (title t))
                        (toLowerCase (default EmptyString title'))) todos
  else todo.

(** *** Filters *)

(** The predicate of the search filter; an absent [description] or [tags]
    makes its [?.] chain [undefined], which is falsy. *)
Definition matches_search (searchLower : string) (t : Todo) : bool :=
  includes (toLowerCase (title t)) searchLower
  || match description t with
     | Some d => includes (toLowerCase d) searchLower
     | None => false
     end
  || match tags t with
     | Some ts => existsb (λ tag, includes (toLowerCase tag) searchLower) ts
     | None => false
     end.

(** [if (status) ...; if (priority) ...; if (search) { ... }] *)
Definition filterTodos (status' priority' search : option string)
    (todos : list Todo) : list Todo :=
  let filteredTodos := todos in
  let filteredTodos :=
    if truthy status' then
      filter (λ t, Some (status t) = status') filteredTodos
    else filteredTodos in
  let filteredTodos :=
    if truthy priority' then
      filter (λ t, Some (priority t) = priority') filteredTodos
    else filteredTodos in
  if truthy search then
    let searchLower := toLowerCase (default EmptyString search) in
    filter (λ t : Todo, matches_search searchLower t) filteredTodos
  else filteredTodos.

End Text.

(** *** Sorting *)

(** [priorityOrder[p]]: a number for the three known priorities; for any
    other key the lookup gives [undefined] or an inherited member, and the
    subtraction below gives [NaN] for both. *)
Definition priorityOrder (p : string) : option Z :=
  if decide (p = "high") then Some 3
  else if decide (p = "medium") then Some 2
  else if decide (p = "low") then Some 1
  else None.

(** Subtraction of numbers, [None] being [NaN]. *)
Definition js_minus (x y : option Z) : option Z :=
  match x, y with
  | Some x, Some y => Some (x - y)
  | _, _ => None
  end.

(** The comparator passed to [sort]. *)
Definition compareTodos (a b : Todo) : option Z :=
  if decide (priority a ≠ priority b) then
    js_minus (priorityOrder (priority b)) (priorityOrder (priority a))
  else js_minus (createdAt b) (createdAt a).

Section Sort.
Context {A : Type}.
Variable comparefn : A → A → option Z.

(** What [Array.prototype.sort] makes of the comparator's result: [NaN]
    counts as [0]. *)
Definition SortCompare (x y : A) : Z := default 0 (comparefn x y).

(** [Array.prototype.sort] is stable; with a consistent comparator its
    result is that of any stable sort, here the insertion sort. *)
Fixpoint insert_sorted (x : A) (l : list A) : list A :=
  match l with
  | [] => [x]
  | y :: l' =>
      if decide (SortCompare x y ≤ 0) then x :: y :: l'
      else y :: insert_sorted x l'
  end.

Definition sort (l : list A) : list A := foldr insert_sorted [] l.

End Sort.

(** The rank and the time by which the comparator orders a todo, when both
    are numbers. *)
Definition sort_key (t : Todo) : option (Z * Z) :=
  match priorityOrder (priority t), createdAt t with
  | Some r, Some d => Some (r, d)
  | _, _ => None
  end.

(** [precedes a b]: [a] has the higher priority, or the same priority and
    is not older than [b]. *)
Definition precedes (a b : Todo) : Prop :=
  match sort_key a, sort_key b with
  | Some (ra, da), Some (rb, db) => rb < ra ∨ (rb = ra ∧ db ≤ da)
  | _, _ => False
  end.

End Todos.

(** * Properties *)

(** ** Renders *)

Arguments settle : simpl never.
Arguments render : simpl never.
Arguments step : simpl never.
Arguments init_effect : simpl never.
Arguments run_cleanup : simpl never.
Arguments initializeSDK_begin : simpl never.
Arguments initializeSDK_resolved : simpl never.
Arguments initializeSDK_catch : simpl never.
Arguments log : simpl never.
Arguments sdk_obj : simpl never.
Arguments put_sdk : simpl never.
Arguments fresh_listener : simpl never.
Arguments on_calls : simpl never.
Arguments init_calls : simpl never.
Arguments unsubscribe_calls : simpl never.
Arguments onError_calls : simpl never.

Lemma settle_unmounted n s : phase s ≠ Mounted → settle n s = s.
Proof.
  revert s. induction n as [|n IH]; intros s H; [done|].
  unfold settle; fold settle. case_decide; [done|].
  assert (render s = s) as ->; [|by apply IH].
  unfold render. destruct (phase s); congruence.
Qed.

Lemma settle_synced n s : cells s = rendered s → settle n s = s.
Proof. destruct n; [done|]. unfold settle. intros ->. by rewrite decide_True. Qed.

Lemma sync_id s : cells s = rendered s → sync s = s.
Proof. destruct s; cbn. by intros ->. Qed.

(** On a mounted client whose effects are up to date with its cells, a
    render only refreshes the snapshot; so does a server render. *)
Lemma render_up_to_date s :
  phase s = Mounted →
  (env s = Client →
   mount_effect_done s = true ∧
   effect_deps s = Some (config (props s), onError (props s),
                         onInitialized (props s), isBrowser (cells s))) →
  render s = sync s.
Proof.
  destruct s as [e ph p c rd med ed ec pd nr w]; cbn.
  intros -> H. unfold render, sync; cbn.
  destruct e; [|done].
  destruct H as [-> ->]; [done|]. cbn.
  unfold deps_of; cbn. by rewrite decide_True.
Qed.

Lemma settle_step n s :
  cells s ≠ rendered s → settle (S n) s = settle n (render s).
Proof. intros H. unfold settle; fold settle. by rewrite decide_False. Qed.

Lemma settle_up_to_date n s :
  phase s = Mounted →
  (env s = Client →
   mount_effect_done s = true ∧
   effect_deps s = Some (config (props s), onError (props s),
                         onInitialized (props s), isBrowser (cells s))) →
  settle (S n) s = sync s.
Proof.
  intros Hp H. destruct (decide (cells s = rendered s)) as [Hc|Hc].
  - by rewrite settle_synced, sync_id.
  - rewrite settle_step, render_up_to_date by done.
    by apply settle_synced.
Qed.

(** A render on a client finds the dependencies changed: the previous
    cleanup runs, then the effect body. *)
Lemma render_effect s :
  phase s = Mounted → env s = Client → mount_effect_done s = true →
  effect_deps s ≠ Some (config (props s), onError (props s),
                        onInitialized (props s), isBrowser (cells s)) →
  render s = init_effect (run_cleanup (sync s)).
Proof.
  destruct s as [e ph p c rd med ed ec pd nr w]; cbn.
  intros -> -> -> H. unfold render; cbn. unfold deps_of; cbn.
  by rewrite decide_False.
Qed.

(** The first render in a browser: the [[]]-effect writes [isBrowser], the
    second effect sees [isBrowser = false] and returns at its guard. *)
Lemma render_first s :
  phase s = Mounted → env s = Client → mount_effect_done s = false →
  effect_deps s = None → effect_cleanup s = None → isBrowser (cells s) = false →
  render s =
    mkProvider Client Mounted (props s)
      (mkHooks true (value (cells s))) (cells s) true
      (Some (config (props s), onError (props s), onInitialized (props s), false))
      None (pending s) (next_run s) (widget s).
Proof.
  destruct s as [e ph p [b v] rd med ed ec pd nr w]; cbn.
  intros -> -> -> -> -> ->. unfold render; cbn.
  rewrite decide_False by done.
  unfold init_effect, run_cleanup; cbn. done.
Qed.

Lemma render_server s :
  phase s = Mounted → env s = Server → render s = sync s.
Proof. intros. by apply render_up_to_date; [|congruence]. Qed.

(** ** What the pieces of [initializeSDK] leave alone *)

Lemma frame_set_cell_value f s :
  frame (set_cell (on_value f) s) = frame s.
Proof. destruct s as [e [] p c rd med ed ec pd nr w]; reflexivity. Qed.

Lemma frame_with_widget f s : frame (with_widget f s) = frame s.
Proof. by destruct s. Qed.

Lemma frame_catch r err s : frame (initializeSDK_catch r err s) = frame s.
Proof.
  destruct s as [e [] p c rd med ed ec pd nr w];
    destruct r as [id cfg [[ref [v|]]|] oi]; reflexivity.
Qed.

Lemma frame_resolved r inst s : frame (initializeSDK_resolved r inst s) = frame s.
Proof.
  destruct s as [e [] p c rd med ed ec pd nr w];
    destruct r as [id cfg [[ref [v|]]|] [[ref' [v'|]]|]]; reflexivity.
Qed.

Lemma frame_listeners ws (l : list nat) s :
  frame (foldl (λ acc _, listener ws acc) s l) = frame s.
Proof.
  revert s. induction l as [|x l IH]; intros s; [done|].
  cbn [foldl]. rewrite IH. apply frame_set_cell_value.
Qed.

Lemma frame_inv s s' :
  frame s' = frame s →
  env s' = env s ∧ phase s' = phase s ∧ props s' = props s ∧
  rendered s' = rendered s ∧ mount_effect_done s' = mount_effect_done s ∧
  effect_deps s' = effect_deps s ∧ effect_cleanup s' = effect_cleanup s ∧
  pending s' = pending s ∧ next_run s' = next_run s ∧
  isBrowser (cells s') = isBrowser (cells s).
Proof. unfold frame. intros [=]. auto 10. Qed.

Lemma up_to_date_frame s s' :
  frame s' = frame s → up_to_date s → up_to_date s'.
Proof.
  intros (He & Hp & Hpr & _ & Hm & Hd & _ & _ & _ & Hb)%frame_inv H.
  unfold up_to_date. rewrite He, Hp, Hpr, Hm, Hd, Hb. exact H.
Qed.

Lemma frame_drop_run id s :
  up_to_date s → up_to_date (drop_run id s).
Proof. by destruct s. Qed.

Lemma settled_up_to_date s : settled s → up_to_date s.
Proof.
  intros (Hc & _ & _ & _ & H) Hp He. rewrite Hp in H.
  destruct (H He) as (? & ? & Hd & _). split; [done|].
  rewrite Hd. unfold deps_of. by rewrite Hc.
Qed.

(** After the continuation of an event the provider is rendered once more,
    and that render runs no effect. *)
Lemma settle_sync s :
  up_to_date s → (phase s ≠ Mounted → cells s = rendered s) →
  settle render_fuel s = sync s.
Proof.
  intros H Hc. destruct (decide (phase s = Mounted)) as [Hp|Hp].
  - apply settle_up_to_date; [done|]. intros. by apply H.
  - rewrite settle_unmounted, sync_id by auto. done.
Qed.

Lemma cells_set_cell_unmounted f s :
  phase s ≠ Mounted → set_cell f s = s.
Proof. unfold set_cell. by destruct (phase s). Qed.

Lemma cells_catch_unmounted r err s :
  phase s ≠ Mounted → cells (initializeSDK_catch r err s) = cells s.
Proof.
  destruct s as [e [] p c rd med ed ec pd nr w]; [|done|];
    destruct r as [id cfg [[ref [v|]]|] oi]; reflexivity.
Qed.

Lemma cells_resolved_unmounted r inst s :
  phase s ≠ Mounted → cells (initializeSDK_resolved r inst s) = cells s.
Proof.
  destruct s as [e [] p c rd med ed ec pd nr w]; [|done|];
    destruct r as [id cfg [[ref [v|]]|] [[ref' [v'|]]|]]; reflexivity.
Qed.

Lemma listeners_unmounted ws (l : list nat) s :
  phase s ≠ Mounted → foldl (λ acc _, listener ws acc) s l = s.
Proof.
  intros H. induction l as [|x l IH]; [done|].
  cbn [foldl]. unfold listener at 2, setState.
  by rewrite cells_set_cell_unmounted.
Qed.

(** ** One event at a time *)

Lemma step_resolve s id r inst :
  settled s → find_run id s = Some r →
  step s (InitResolve id inst) = sync (initializeSDK_resolved r inst (drop_run id s)).
Proof.
  intros Hs Hr. unfold step. rewrite Hr. apply settle_sync.
  - eapply up_to_date_frame; [apply frame_resolved|].
    by apply frame_drop_run, settled_up_to_date.
  - intros Hp. pose proof (frame_resolved r inst (drop_run id s)) as Hf.
    apply frame_inv in Hf as (_ & Hp' & _ & -> & _).
    rewrite Hp' in Hp. rewrite cells_resolved_unmounted by done.
    destruct s; apply Hs.
Qed.

Lemma step_reject s id r err :
  settled s → find_run id s = Some r →
  step s (InitReject id err) = sync (initializeSDK_catch r err (drop_run id s)).
Proof.
  intros Hs Hr. unfold step. rewrite Hr. apply settle_sync.
  - eapply up_to_date_frame; [apply frame_catch|].
    by apply frame_drop_run, settled_up_to_date.
  - intros Hp. pose proof (frame_catch r err (drop_run id s)) as Hf.
    apply frame_inv in Hf as (_ & Hp' & _ & -> & _).
    rewrite Hp' in Hp. rewrite cells_catch_unmounted by done.
    destruct s; apply Hs.
Qed.

Lemma step_state_change s inst ws :
  settled s →
  step s (StateChange inst ws) =
    sync (foldl (λ acc _, listener ws acc) (with_widget (widget_emit inst ws) s)
            (listeners (sdk_obj (widget_emit inst ws (widget s)) inst))).
Proof.
  intros Hs. unfold step.
  replace (widget (with_widget (widget_emit inst ws) s))
    with (widget_emit inst ws (widget s)) by by destruct s.
  apply settle_sync.
  - eapply up_to_date_frame; [apply frame_listeners|].
    eapply up_to_date_frame; [apply frame_with_widget|].
    by apply settled_up_to_date.
  - intros Hp.
    pose proof (frame_listeners ws
      (listeners (sdk_obj (widget_emit inst ws (widget s)) inst))
      (with_widget (widget_emit inst ws) s)) as Hf.
    apply frame_inv in Hf as (_ & Hp' & _ & Hr & _).
    rewrite Hp' in Hp. rewrite listeners_unmounted by done.
    destruct s; apply Hs.
Qed.

(** Calls and handle objects *)

Lemma on_calls_log c w :
  on_calls (log c w) =
  on_calls w ++ match c with CallOn i l => [(i, l)] | _ => [] end.
Proof. unfold on_calls, log; cbn. rewrite omap_app. by destruct c. Qed.

Lemma sdk_obj_put i j o w :
  sdk_obj (put_sdk i o w) j = if decide (i = j) then o else sdk_obj w j.
Proof.
  unfold sdk_obj, put_sdk; cbn. rewrite lookup_insert.
  by case_decide.
Qed.

Lemma step_mount_client s p :
  settled s → env s = Client → phase s = NotMounted →
  step s (Mount p) =
    mkProvider Client Mounted p
      (mkHooks true (mkContext None false true None initial_state))
      (mkHooks true (mkContext None false true None initial_state))
      true (Some (config p, onError p, onInitialized p, true)) (Some None)
      [mkRun 0 (config p) (onError p) (onInitialized p)]
      1 (log (CallInit (config p)) (widget s)).
Proof.
  intros (Hc & _ & _ & _ & H) He Hp. rewrite Hp in H.
  destruct H as (Hi & Hm & Hd & Hu & Hpd & Hn & _).
  destruct s as [e ph pr c rd med ed ec pd nr w]; cbn in *. subst.
  unfold step, with_props; cbn.
  rewrite render_first by done. cbn.
  unfold render_fuel. rewrite settle_step by (cbn; discriminate).
  rewrite render_effect; cbn; try done.
  unfold init_effect, run_cleanup, cleanup; cbn.
  rewrite settle_up_to_date; cbn; try done.
Qed.

Lemma step_mount_server s p :
  settled s → env s = Server → phase s = NotMounted →
  step s (Mount p) =
    mkProvider Server Mounted p initial_hooks initial_hooks
      false None None [] 0 (widget s).
Proof.
  intros (Hc & _ & _ & _ & H) He Hp. rewrite Hp in H.
  destruct H as (Hi & Hm & Hd & Hu & Hpd & Hn & _).
  destruct s as [e ph pr c rd med ed ec pd nr w]; cbn in *. subst.
  unfold step, with_props; cbn.
  rewrite render_server by done. cbn.
  by rewrite settle_synced.
Qed.

Lemma step_rerender_same s :
  settled s → step s (Rerender (props s)) = s.
Proof.
  intros Hs. unfold step. destruct (phase s) eqn:Hp; try done.
  assert (with_props (props s) Mounted s = s) as ->.
  { destruct s; cbn in *. by subst. }
  rewrite render_up_to_date; [|done|by intros; apply settled_up_to_date].
  rewrite sync_id by apply Hs. apply settle_synced, Hs.
Qed.

Lemma step_rerender_changed s p :
  settled s → env s = Client → phase s = Mounted → p ≠ props s →
  step s (Rerender p) =
    mkProvider Client Mounted p
      (on_value (λ c, mkContext (sdk c) (isInitialized c) true None (state c)) (cells s))
      (on_value (λ c, mkContext (sdk c) (isInitialized c) true None (state c)) (cells s))
      true (Some (config p, onError p, onInitialized p, true))
      (Some (sdk (value (cells s))))
      (pending s ++ [mkRun (next_run s) (config p) (onError p) (onInitialized p)])
      (S (next_run s))
      (log (CallInit (config p)) (widget (run_cleanup s))).
Proof.
  intros (Hc & _ & _ & _ & H) He Hp Hne. rewrite Hp in H.
  destruct (H He) as (Hm & Hb & Hd & Hu).
  destruct s as [e ph pr [b v] rd med ed ec pd nr w]; unfold deps_of in *; cbn in *. subst.
  unfold step, with_props; cbn.
  rewrite render_effect; cbn; try done.
  2:{ intros [=]. apply Hne. destruct p, pr; cbn in *; congruence. }
  unfold init_effect, run_cleanup, cleanup, initializeSDK_begin; cbn.
  destruct ec as [[inst|]|]; cbn;
    [destruct (_unsubscribeStateChange (sdk_obj w inst)); cbn|..];
    unfold render_fuel; rewrite settle_up_to_date; cbn; done.
Qed.

Lemma step_rerender_server s p :
  settled s → env s = Server → phase s = Mounted →
  step s (Rerender p) = with_props p Mounted s.
Proof.
  intros Hs He Hp. unfold step. rewrite Hp.
  rewrite render_server; [|done|by destruct s].
  rewrite sync_id; [|destruct s; apply Hs].
  apply settle_synced. destruct s; apply Hs.
Qed.

Lemma step_unmount s :
  phase s = Mounted →
  step s Unmount =
    mkProvider (env s) Unmounted (props s) (cells s) (rendered s)
      (mount_effect_done s) (effect_deps s) None (pending s) (next_run s)
      (widget (match env s with Client => run_cleanup s | Server => s end)).
Proof.
  intros Hp. unfold step. rewrite Hp.
  destruct s as [[] ph p c rd med ed [[inst|]|] pd nr w]; cbn; try done.
  unfold run_cleanup, cleanup; cbn.
  by destruct (_unsubscribeStateChange (sdk_obj w inst)).
Qed.

(** ** The cleanup only ever removes listeners *)

Lemma on_calls_run_cleanup s :
  on_calls (widget (run_cleanup s)) = on_calls (widget s).
Proof.
  unfold run_cleanup, cleanup.
  destruct (effect_cleanup s) as [[inst|]|]; try done.
  destruct (_unsubscribeStateChange (sdk_obj (widget s) inst)); [|done].
  destruct s as [e ph p c rd med ed ec pd nr w]; cbn.
  unfold sdk_unsubscribe. rewrite on_calls_log. cbn. by rewrite app_nil_r.
Qed.

Lemma init_calls_log c w :
  init_calls (log c w) =
  init_calls w ++ match c with CallInit cfg => [cfg] | _ => [] end.
Proof. unfold init_calls, log; cbn. rewrite omap_app. by destruct c. Qed.

Lemma init_calls_run_cleanup s :
  init_calls (widget (run_cleanup s)) = init_calls (widget s).
Proof.
  unfold run_cleanup, cleanup.
  destruct (effect_cleanup s) as [[inst|]|]; try done.
  destruct (_unsubscribeStateChange (sdk_obj (widget s) inst)); [|done].
  destruct s as [e ph p c rd med ed ec pd nr w]; cbn.
  unfold sdk_unsubscribe. rewrite init_calls_log. cbn. by rewrite app_nil_r.
Qed.

Lemma sdk_obj_log c w i : sdk_obj (log c w) i = sdk_obj w i.
Proof. done. Qed.

Lemma listeners_run_cleanup s :
  (∀ i, listeners (sdk_obj (widget s) i) = []) →
  ∀ i, listeners (sdk_obj (widget (run_cleanup s)) i) = [].
Proof.
  intros H i. unfold run_cleanup, cleanup.
  destruct (effect_cleanup s) as [[inst|]|]; try done.
  destruct (_unsubscribeStateChange (sdk_obj (widget s) inst)); [|done].
  destruct s as [e ph p c rd med ed ec pd nr w]; cbn in *.
  unfold sdk_unsubscribe. rewrite sdk_obj_log, sdk_obj_put.
  case_decide; [|done]. cbn. by rewrite H.
Qed.

(** ** What the continuations write *)

Ltac callbacks r :=
  destruct r as [? ? [[? [?|]]|] [[? [?|]]|]].

Lemma unsubscribe_calls_log c w :
  unsubscribe_calls (log c w) =
  unsubscribe_calls w ++ match c with CallUnsubscribe i l => [(i, l)] | _ => [] end.
Proof. unfold unsubscribe_calls, log; cbn. rewrite omap_app. by destruct c. Qed.

Lemma onError_calls_log c w :
  onError_calls (log c w) =
  onError_calls w ++ match c with CallOnError cb e => [(cb, e)] | _ => [] end.
Proof. unfold onError_calls, log; cbn. rewrite omap_app. by destruct c. Qed.

Lemma on_calls_put i o w : on_calls (put_sdk i o w) = on_calls w.
Proof. done. Qed.
Lemma init_calls_put i o w : init_calls (put_sdk i o w) = init_calls w.
Proof. done. Qed.
Lemma unsubscribe_calls_put i o w : unsubscribe_calls (put_sdk i o w) = unsubscribe_calls w.
Proof. done. Qed.
Lemma sdk_obj_fresh_listener w i : sdk_obj (fresh_listener w) i = sdk_obj w i.
Proof. done. Qed.

Lemma sdk_obj_put_eq i o w : sdk_obj (put_sdk i o w) i = o.
Proof. rewrite sdk_obj_put. by rewrite decide_True. Qed.

(** The context value a successful continuation leaves in the cells. *)
Lemma value_resolved r inst s :
  phase s = Mounted →
  value (cells (initializeSDK_resolved r inst s)) =
    mkContext (Some inst) true false
      (match run_onInitialized r with
       | Some (mkCallback _ (Some v)) => Some (sdkError_of v)
       | _ => error (value (cells s))
       end)
      (snapshot (sdk_obj (widget s) inst)).
Proof.
  destruct s as [e ph p [b v] rd med ed ec pd nr w]; cbn. intros ->.
  callbacks r; unfold initializeSDK_resolved, initializeSDK_catch; cbn; f_equal;
    by rewrite sdk_obj_log, sdk_obj_fresh_listener, sdk_obj_put_eq.
Qed.

Lemma value_catch r err s :
  phase s = Mounted →
  value (cells (initializeSDK_catch r err s)) =
    mkContext (sdk (value (cells s))) (isInitialized (value (cells s))) false
      (Some (sdkError_of err)) (state (value (cells s))).
Proof.
  destruct s as [e ph p [b v] rd med ed ec pd nr w]; cbn. intros ->.
  callbacks r; reflexivity.
Qed.

Lemma widget_catch r err s :
  widget (initializeSDK_catch r err s) = logs (catch_calls r err) (widget s).
Proof.
  destruct s as [e [] p [b v] rd med ed ec pd nr w]; callbacks r; reflexivity.
Qed.

Lemma widget_resolved r inst s :
  widget (initializeSDK_resolved r inst s) =
    logs (resolved_calls r inst)
      (store_unsubscribe inst (next_listener (widget s))
         (log (CallGetState inst) (sdk_on inst (widget s)).2)).
Proof.
  destruct s as [e [] p [b v] rd med ed ec pd nr w]; callbacks r; reflexivity.
Qed.

Lemma callback_catch_calls r err : Forall callback_call (catch_calls r err).
Proof. callbacks r; cbn; repeat constructor. Qed.

Lemma callback_resolved_calls r inst : Forall callback_call (resolved_calls r inst).
Proof. callbacks r; cbn; repeat constructor. Qed.

Lemma logs_snoc cs c w : logs (cs ++ [c]) w = log c (logs cs w).
Proof. unfold logs. by rewrite foldl_app. Qed.

Lemma logs_callbacks cs w :
  Forall callback_call cs →
  sdks (logs cs w) = sdks w ∧ next_listener (logs cs w) = next_listener w ∧
  on_calls (logs cs w) = on_calls w ∧ init_calls (logs cs w) = init_calls w ∧
  unsubscribe_calls (logs cs w) = unsubscribe_calls w.
Proof.
  induction cs as [|c cs IH] using rev_ind; [done|].
  intros [Hcs Hc]%Forall_app. inversion_clear Hc as [|?? Hc' _].
  destruct (IH Hcs) as (? & ? & ? & ? & ?).
  rewrite logs_snoc, on_calls_log, init_calls_log, unsubscribe_calls_log.
  destruct c; try done; cbn; rewrite ?app_nil_r; split_and!; done.
Qed.

Lemma sdk_obj_sdks w w' i : sdks w = sdks w' → sdk_obj w i = sdk_obj w' i.
Proof. unfold sdk_obj. by intros ->. Qed.

(** The handle objects and the calls after a successful continuation. *)
Lemma resolved_effect r inst s :
  let w := widget s in
  let w' := widget (initializeSDK_resolved r inst s) in
  let l := next_listener w in
  (∀ k, sdk_obj w' k =
        if decide (inst = k)
        then mkSdkObject (listeners (sdk_obj w inst) ++ [l])
               (snapshot (sdk_obj w inst)) (Some l)
        else sdk_obj w k) ∧
  next_listener w' = S l ∧
  on_calls w' = on_calls w ++ [(inst, l)] ∧
  init_calls w' = init_calls w ∧
  unsubscribe_calls w' = unsubscribe_calls w.
Proof.
  cbn zeta. rewrite widget_resolved.
  destruct (logs_callbacks (resolved_calls r inst)
    (store_unsubscribe inst (next_listener (widget s))
       (log (CallGetState inst) (sdk_on inst (widget s)).2))
    (callback_resolved_calls r inst)) as (Hs & -> & -> & -> & ->).
  split_and!.
  - intros k. rewrite (sdk_obj_sdks _ _ k Hs). unfold store_unsubscribe, sdk_on.
    cbn [snd]. rewrite !sdk_obj_put, sdk_obj_log.
    rewrite !sdk_obj_log, !sdk_obj_fresh_listener, !sdk_obj_put_eq.
    case_decide; [done|]. rewrite sdk_obj_put. by rewrite decide_False.
  - done.
  - unfold store_unsubscribe, sdk_on. cbn [snd].
    rewrite on_calls_put, !on_calls_log. cbn. by rewrite app_nil_r.
  - unfold store_unsubscribe, sdk_on. cbn [snd].
    rewrite init_calls_put, !init_calls_log. cbn. by rewrite !app_nil_r.
  - unfold store_unsubscribe, sdk_on. cbn [snd].
    rewrite unsubscribe_calls_put, !unsubscribe_calls_log. cbn. by rewrite !app_nil_r.
Qed.

Lemma catch_effect r err s :
  let w := widget s in
  let w' := widget (initializeSDK_catch r err s) in
  (∀ k, sdk_obj w' k = sdk_obj w k) ∧
  next_listener w' = next_listener w ∧
  on_calls w' = on_calls w ∧
  init_calls w' = init_calls w ∧
  unsubscribe_calls w' = unsubscribe_calls w.
Proof.
  cbn zeta. rewrite widget_catch.
  destruct (logs_callbacks (catch_calls r err) (widget s)
    (callback_catch_calls r err)) as (Hs & -> & -> & -> & ->).
  split_and!; try done. intros k. by apply sdk_obj_sdks.
Qed.

(** ** Every reachable state is settled *)

Lemma find_run_pending id s r : find_run id s = Some r → r ∈ pending s ∧ run_id r = id.
Proof.
  unfold find_run. intros H%head_Some_elem_of. by apply list_elem_of_filter in H as [? ?].
Qed.

Lemma Forall_filter_keep {A} (P Q : A → Prop) `{∀ x, Decision (Q x)} (l : list A) :
  Forall P l → Forall P (filter Q l).
Proof.
  rewrite !Forall_forall. intros H' x [_ ?]%list_elem_of_filter. by apply H'.
Qed.

Lemma widget_set_cell f s : widget (set_cell f s) = widget s.
Proof. unfold set_cell. by destruct s as [? [] ? ? ? ? ? ? ? ? ?]. Qed.

Lemma widget_listeners ws (l : list nat) s :
  widget (foldl (λ acc _, listener ws acc) s l) = widget s.
Proof.
  induction l as [|x l IH] using rev_ind; [done|].
  rewrite foldl_app. cbn [foldl]. rewrite <- IH. apply widget_set_cell.
Qed.

Lemma settled_step s ev : settled s → settled (step s ev).
Proof.
  intros Hs. pose proof Hs as (Hc & Hpd & Hsrv & Hon & Hph).
  destruct ev as [p|p|id inst|id err|inst ws|].
  - (* Mount *)
    destruct (phase s) eqn:Hp; try (unfold step; rewrite Hp; done).
    destruct Hph as (Hi & Hm & Hd & Hu & Hpd' & Hn & Hcalls).
    destruct (env s) eqn:He.
    + rewrite step_mount_client by done.
      assert (on_calls (widget s) = []) as Hoc.
      { unfold on_calls. by rewrite Hcalls. }
      split_and!; cbn; try done.
      * repeat constructor.
      * rewrite on_calls_log. cbn. intros _. split; [|done].
        intros i. rewrite sdk_obj_log. by apply Hon.
    + rewrite step_mount_server by done.
      split_and!; cbn; try done.
      intros Hoc. split; [by apply Hon|done].
  - (* Rerender *)
    destruct (phase s) eqn:Hp; try (unfold step; rewrite Hp; done).
    destruct (env s) eqn:He.
    + destruct (decide (p = props s)) as [->|Hne].
      { by rewrite step_rerender_same. }
      rewrite step_rerender_changed by done.
      split_and!; cbn; try done.
      * apply Forall_app. split.
        -- eapply Forall_impl; [exact Hpd|]. cbn. lia.
        -- repeat constructor; cbn; lia.
      * rewrite on_calls_log, on_calls_run_cleanup. cbn. rewrite app_nil_r.
        intros Hoc. destruct (Hon Hoc) as [Hl Hst]. split.
        -- intros i. rewrite sdk_obj_log. by apply listeners_run_cleanup.
        -- destruct s as [? ? ? [? []] ? ? ? ? ? ? ?]. exact Hst.
      * intros _. destruct (Hph eq_refl) as (? & Hb & _).
        unfold deps_of. destruct s as [? ? ? [? []] ? ? ? ? ? ? ?]; cbn in *; subst.
        split_and!; try done.
    + rewrite step_rerender_server by done.
      destruct s; cbn in *. subst. split_and!; try done.
  - (* InitResolve *)
    destruct (find_run id s) as [r|] eqn:Hr; [|by unfold step; rewrite Hr].
    rewrite (step_resolve s id r inst) by done.
    pose proof (frame_resolved r inst (drop_run id s)) as Hf.
    apply frame_inv in Hf as (He' & Hp' & Hpr' & Hrd' & Hm' & Hd' & Hu' & Hpd'' & Hn' & Hb').
    destruct (resolved_effect r inst (drop_run id s)) as (Ho & Hnl & Hoc & _).
    assert (env s = Client) as He.
    { destruct (env s); [done|]. destruct (Hsrv eq_refl) as (_ & Hnil & _).
      unfold find_run in Hr. by rewrite Hnil in Hr. }
    set (s' := initializeSDK_resolved r inst (drop_run id s)) in *.
    unfold settled, deps_of. cbn [sync env phase props cells rendered mount_effect_done
      effect_deps effect_cleanup pending next_run widget].
    rewrite He', Hp', Hpr', Hm', Hd', Hu', Hpd'', Hn', Hb', Hoc.
    replace (env (drop_run id s)) with (env s) by by destruct s.
    replace (phase (drop_run id s)) with (phase s) by by destruct s.
    replace (props (drop_run id s)) with (props s) by by destruct s.
    replace (cells (drop_run id s)) with (cells s) by by destruct s.
    replace (mount_effect_done (drop_run id s)) with (mount_effect_done s) by by destruct s.
    replace (effect_deps (drop_run id s)) with (effect_deps s) by by destruct s.
    replace (effect_cleanup (drop_run id s)) with (effect_cleanup s) by by destruct s.
    replace (next_run (drop_run id s)) with (next_run s) by by destruct s.
    replace (pending (drop_run id s)) with (filter (λ r, run_id r ≠ id) (pending s)) by by destruct s.
    split_and!.
    + done.
    + by apply Forall_filter_keep.
    + congruence.
    + by intros []%app_eq_nil.
    + destruct (phase s) eqn:Hp.
      * destruct (find_run_pending _ _ _ Hr) as [Hin _].
        destruct Hph as (_ & _ & _ & _ & Hnil & _). rewrite Hnil in Hin.
        by apply elem_of_nil in Hin.
      * intros _. destruct (Hph He) as (? & ? & Hdd & ?).
        split_and!; try done. rewrite Hdd. unfold deps_of. by rewrite Hc.
      * done.
  - (* InitReject *)
    destruct (find_run id s) as [r|] eqn:Hr; [|by unfold step; rewrite Hr].
    rewrite (step_reject s id r err) by done.
    pose proof (frame_catch r err (drop_run id s)) as Hf.
    apply frame_inv in Hf as (He' & Hp' & Hpr' & Hrd' & Hm' & Hd' & Hu' & Hpd'' & Hn' & Hb').
    destruct (catch_effect r err (drop_run id s)) as (Ho & Hnl & Hoc & _).
    assert (env s = Client) as He.
    { destruct (env s); [done|]. destruct (Hsrv eq_refl) as (_ & Hnil & _).
      unfold find_run in Hr. by rewrite Hnil in Hr. }
    assert (phase s ≠ NotMounted) as Hnm.
    { intros Hp. rewrite Hp in Hph.
      destruct (find_run_pending _ _ _ Hr) as [Hin _].
      destruct Hph as (_ & _ & _ & _ & Hnil & _). rewrite Hnil in Hin.
      by apply elem_of_nil in Hin. }
    assert (state (value (cells (initializeSDK_catch r err (drop_run id s)))) =
            state (value (cells s))) as Hst.
    { destruct (decide (phase s = Mounted)) as [Hp|Hp].
      - rewrite value_catch by by destruct s. by destruct s.
      - rewrite cells_catch_unmounted by by destruct s. by destruct s. }
    set (s' := initializeSDK_catch r err (drop_run id s)) in *.
    unfold settled, deps_of. cbn [sync env phase props cells rendered mount_effect_done
      effect_deps effect_cleanup pending next_run widget].
    rewrite He', Hp', Hpr', Hm', Hd', Hu', Hpd'', Hn', Hb', Hoc, Hst.
    replace (env (drop_run id s)) with (env s) by by destruct s.
    replace (phase (drop_run id s)) with (phase s) by by destruct s.
    replace (props (drop_run id s)) with (props s) by by destruct s.
    replace (cells (drop_run id s)) with (cells s) by by destruct s.
    replace (mount_effect_done (drop_run id s)) with (mount_effect_done s) by by destruct s.
    replace (effect_deps (drop_run id s)) with (effect_deps s) by by destruct s.
    replace (effect_cleanup (drop_run id s)) with (effect_cleanup s) by by destruct s.
    replace (next_run (drop_run id s)) with (next_run s) by by destruct s.
    replace (pending (drop_run id s)) with (filter (λ r, run_id r ≠ id) (pending s)) by by destruct s.
    replace (on_calls (widget (drop_run id s))) with (on_calls (widget s)) by by destruct s.
    split_and!.
    + done.
    + by apply Forall_filter_keep.
    + congruence.
    + intros Hoc'. destruct (Hon Hoc') as [Hl ?]. split; [|done].
      intros i. rewrite Ho. replace (widget (drop_run id s)) with (widget s) by by destruct s.
      apply Hl.
    + destruct (phase s) eqn:Hp; [done| |done].
      intros _. destruct (Hph He) as (? & ? & Hdd & ?).
      split_and!; try done. rewrite Hdd. unfold deps_of. by rewrite Hc.
  - (* StateChange *)
    rewrite step_state_change by done.
    set (w' := widget_emit inst ws (widget s)).
    assert (∀ i, listeners (sdk_obj w' i) = listeners (sdk_obj (widget s) i)) as Hl.
    { intros i. unfold w', widget_emit. rewrite sdk_obj_put.
      case_decide as Heq; [by rewrite <- Heq|done]. }
    assert (on_calls w' = on_calls (widget s)) as Hoc by done.
    destruct (decide (listeners (sdk_obj w' inst) = [])) as [Hnil|Hnn].
    { rewrite Hnil. cbn [foldl].
      destruct s as [e ph p c rd med ed ec pd nr w]; unfold settled, deps_of in *;
        cbn in *. fold w'. rewrite Hoc. split_and!; try done.
      - intros Hoc'. destruct (Hon Hoc') as [Hl' ?]. split; [|done].
        intros i. rewrite Hl. apply Hl'.
      - destruct ph; try done. intros He. destruct (Hph He) as (? & ? & ? & ?).
        split_and!; congruence. }
    assert (on_calls (widget s) ≠ []) as Hne.
    { intros Hoc'. destruct (Hon Hoc') as [Hl' _]. by rewrite Hl, Hl' in Hnn. }
    assert (calls (widget s) ≠ []) as Hcalls.
    { intros Hcalls. apply Hne. unfold on_calls. by rewrite Hcalls. }
    pose proof (frame_listeners ws (listeners (sdk_obj w' inst))
      (with_widget (widget_emit inst ws) s)) as Hf.
    apply frame_inv in Hf as (He' & Hp' & Hpr' & Hrd' & Hm' & Hd' & Hu' & Hpd'' & Hn' & Hb').
    assert (widget (foldl (λ acc _, listener ws acc) (with_widget (widget_emit inst ws) s)
              (listeners (sdk_obj w' inst))) = w') as Hw.
    { rewrite widget_listeners. by destruct s. }
    set (s' := foldl _ _ _) in *.
    unfold settled, deps_of. cbn [sync env phase props cells rendered mount_effect_done
      effect_deps effect_cleanup pending next_run widget].
    rewrite He', Hp', Hpr', Hm', Hd', Hu', Hpd'', Hn', Hb', Hw.
    replace (env (with_widget (widget_emit inst ws) s)) with (env s) by by destruct s.
    replace (phase (with_widget (widget_emit inst ws) s)) with (phase s) by by destruct s.
    replace (props (with_widget (widget_emit inst ws) s)) with (props s) by by destruct s.
    replace (cells (with_widget (widget_emit inst ws) s)) with (cells s) by by destruct s.
    replace (mount_effect_done (with_widget (widget_emit inst ws) s)) with (mount_effect_done s) by by destruct s.
    replace (effect_deps (with_widget (widget_emit inst ws) s)) with (effect_deps s) by by destruct s.
    replace (effect_cleanup (with_widget (widget_emit inst ws) s)) with (effect_cleanup s) by by destruct s.
    replace (next_run (with_widget (widget_emit inst ws) s)) with (next_run s) by by destruct s.
    replace (pending (with_widget (widget_emit inst ws) s)) with (pending s) by by destruct s.
    rewrite Hoc. replace (calls w') with (calls (widget s)) by done.
    split_and!; try done.
    + intros He. by destruct (Hsrv He) as (_ & _ & ?).
    + destruct (phase s) eqn:Hp; try done.
      * by destruct Hph as (_ & _ & _ & _ & _ & _ & ?).
      * intros He. destruct (Hph He) as (? & ? & Hdd & ?).
        split_and!; try done. rewrite Hdd. unfold deps_of. by rewrite Hc.
  - (* Unmount *)
    destruct (phase s) eqn:Hp; try (unfold step; rewrite Hp; done).
    rewrite step_unmount by done.
    unfold settled. cbn. split_and!; try done.
    + intros He. rewrite He. by apply Hsrv.
    + destruct (env s) eqn:He.
      * rewrite on_calls_run_cleanup. intros Hoc. destruct (Hon Hoc) as [Hl ?].
        split; [|done]. by apply listeners_run_cleanup.
      * done.
Qed.

Lemma reachable_settled s : reachable s → settled s.
Proof.
  intros (e & evs & ->). induction evs as [|ev evs IH] using rev_ind.
  - unfold settled; cbn. split_and!; done.
  - unfold run_events. rewrite foldl_app. cbn [foldl]. by apply settled_step.
Qed.

(** ** Executions *)

Lemma widget_sync s : widget (sync s) = widget s.
Proof. done. Qed.

Lemma widget_step_state_change s inst ws :
  settled s → widget (step s (StateChange inst ws)) = widget_emit inst ws (widget s).
Proof.
  intros Hs. rewrite step_state_change by done.
  rewrite widget_sync, widget_listeners. by destruct s.
Qed.

Lemma on_calls_step s ev :
  settled s → is_resolve ev = false →
  on_calls (widget (step s ev)) = on_calls (widget s).
Proof.
  intros Hs Hev. pose proof Hs as (Hc & Hpd & Hsrv & Hon & Hph).
  destruct ev as [p|p|id inst|id err|inst ws|]; [| | done | | |].
  - destruct (phase s) eqn:Hp; try (unfold step; rewrite Hp; done).
    destruct (env s) eqn:He.
    + rewrite step_mount_client by done. cbn. rewrite on_calls_log. cbn.
      by rewrite app_nil_r.
    + by rewrite step_mount_server.
  - destruct (phase s) eqn:Hp; try (unfold step; rewrite Hp; done).
    destruct (env s) eqn:He.
    + destruct (decide (p = props s)) as [->|Hne]; [by rewrite step_rerender_same|].
      rewrite step_rerender_changed by done. cbn.
      rewrite on_calls_log, on_calls_run_cleanup. cbn. by rewrite app_nil_r.
    + by rewrite step_rerender_server.
  - destruct (find_run id s) as [r|] eqn:Hr; [|by unfold step; rewrite Hr].
    rewrite (step_reject s id r err) by done. rewrite widget_sync.
    by destruct (catch_effect r err (drop_run id s)) as (_ & _ & -> & _).
  - by rewrite widget_step_state_change.
  - destruct (phase s) eqn:Hp; try (unfold step; rewrite Hp; done).
    rewrite step_unmount by done. cbn.
    destruct (env s); [|done]. apply on_calls_run_cleanup.
Qed.

Lemma init_calls_step s ev :
  settled s → isBrowser (cells (step s ev)) = false →
  init_calls (widget (step s ev)) = init_calls (widget s).
Proof.
  intros Hs. pose proof Hs as (Hc & Hpd & Hsrv & Hon & Hph).
  destruct ev as [p|p|id inst|id err|inst ws|].
  - destruct (phase s) eqn:Hp; try (unfold step; rewrite Hp; done).
    destruct (env s) eqn:He.
    + by rewrite step_mount_client.
    + by rewrite step_mount_server.
  - destruct (phase s) eqn:Hp; try (unfold step; rewrite Hp; done).
    destruct (env s) eqn:He.
    + destruct (decide (p = props s)) as [->|Hne]; [by rewrite step_rerender_same|].
      rewrite step_rerender_changed by done. cbn.
      destruct (Hph eq_refl) as (_ & Hb & _). by rewrite Hb.
    + by rewrite step_rerender_server.
  - destruct (find_run id s) as [r|] eqn:Hr; [|by unfold step; rewrite Hr].
    rewrite (step_resolve s id r inst) by done. rewrite widget_sync.
    by destruct (resolved_effect r inst (drop_run id s)) as (_ & _ & _ & -> & _).
  - destruct (find_run id s) as [r|] eqn:Hr; [|by unfold step; rewrite Hr].
    rewrite (step_reject s id r err) by done. rewrite widget_sync.
    by destruct (catch_effect r err (drop_run id s)) as (_ & _ & _ & -> & _).
  - by rewrite widget_step_state_change.
  - destruct (phase s) eqn:Hp; try (unfold step; rewrite Hp; done).
    rewrite step_unmount by done. cbn.
    destruct (env s); [|done]. intros _. apply init_calls_run_cleanup.
Qed.

Lemma env_step s ev : settled s → env (step s ev) = env s.
Proof.
  intros Hs. pose proof Hs as (Hc & Hpd & Hsrv & Hon & Hph).
  destruct ev as [p|p|id inst|id err|inst ws|].
  - destruct (phase s) eqn:Hp; try (unfold step; rewrite Hp; done).
    destruct (env s) eqn:He.
    + by rewrite step_mount_client.
    + by rewrite step_mount_server.
  - destruct (phase s) eqn:Hp; try (unfold step; rewrite Hp; done).
    destruct (env s) eqn:He.
    + destruct (decide (p = props s)) as [->|Hne]; [by rewrite step_rerender_same|].
      by rewrite step_rerender_changed.
    + rewrite step_rerender_server by done. by destruct s.
  - destruct (find_run id s) as [r|] eqn:Hr; [|by unfold step; rewrite Hr].
    rewrite (step_resolve s id r inst) by done. cbn [sync env].
    by pose proof (frame_resolved r inst (drop_run id s)) as (-> & _)%frame_inv.
  - destruct (find_run id s) as [r|] eqn:Hr; [|by unfold step; rewrite Hr].
    rewrite (step_reject s id r err) by done. cbn [sync env].
    by pose proof (frame_catch r err (drop_run id s)) as (-> & _)%frame_inv.
  - rewrite step_state_change by done. cbn [sync env].
    by pose proof (frame_listeners ws
      (listeners (sdk_obj (widget_emit inst ws (widget s)) inst))
      (with_widget (widget_emit inst ws) s)) as (-> & _)%frame_inv.
  - destruct (phase s) eqn:Hp; try (unfold step; rewrite Hp; done).
    by rewrite step_unmount.
Qed.

Lemma run_events_snoc s evs ev :
  run_events s (evs ++ [ev]) = step (run_events s evs) ev.
Proof. unfold run_events. by rewrite foldl_app. Qed.

Lemma settled_run_events s evs : settled s → settled (run_events s evs).
Proof.
  intros Hs. induction evs as [|ev evs IH] using rev_ind; [done|].
  rewrite run_events_snoc. by apply settled_step.
Qed.

Lemma env_run_events s evs : settled s → env (run_events s evs) = env s.
Proof.
  intros Hs. induction evs as [|ev evs IH] using rev_ind; [done|].
  rewrite run_events_snoc, env_step; [done|]. by apply settled_run_events.
Qed.

Lemma settled_initial e : settled (initial e).
Proof. apply reachable_settled. by exists e, []. Qed.

Lemma exposed_step_resolve s id r inst :
  settled s → phase s = Mounted → find_run id s = Some r →
  exposed (step s (InitResolve id inst)) =
    mkContext (Some inst) true false
      (match run_onInitialized r with
       | Some (mkCallback _ (Some v)) => Some (sdkError_of v)
       | _ => error (exposed s)
       end)
      (snapshot (sdk_obj (widget s) inst)).
Proof.
  intros Hs Hp Hr. rewrite (step_resolve s id r inst) by done.
  unfold exposed. cbn [sync rendered]. rewrite value_resolved by by destruct s.
  destruct Hs as (<- & _). by destruct s.
Qed.

Lemma value_listeners ws (l : list nat) s :
  value (cells (foldl (λ acc _, listener ws acc) s l)) =
    let v := value (cells s) in
    mkContext (sdk v) (isInitialized v) (isLoading v) (error v)
      (if decide (l = [] ∨ phase s ≠ Mounted) then state v else ws).
Proof.
  cbn zeta. destruct (decide (phase s = Mounted)) as [Hp|Hp].
  - induction l as [|x l IH] using rev_ind.
    + rewrite decide_True by auto. by destruct s as [? ? ? [? []] ? ? ? ? ? ? ?].
    + rewrite foldl_app. cbn [foldl].
      rewrite decide_False by (intros [[]%app_eq_nil|]; naive_solver).
      pose proof (frame_listeners ws l s) as (_ & Hp' & _)%frame_inv.
      rewrite Hp in Hp'.
      assert (∀ s', phase s' = Mounted →
        value (cells (listener ws s')) =
        mkContext (sdk (value (cells s'))) (isInitialized (value (cells s')))
          (isLoading (value (cells s'))) (error (value (cells s'))) ws) as Hone.
      { intros [? ? ? [? []] ? ? ? ? ? ? ?]; cbn. by intros ->. }
      rewrite Hone, IH by done. done.
  - rewrite listeners_unmounted by done. rewrite decide_True by auto.
    by destruct s as [? ? ? [? []] ? ? ? ? ? ? ?].
Qed.

Lemma listeners_emit inst ws w k :
  listeners (sdk_obj (widget_emit inst ws w) k) = listeners (sdk_obj w k).
Proof.
  unfold widget_emit. rewrite sdk_obj_put. case_decide as Heq; [by rewrite <- Heq|done].
Qed.

Lemma exposed_state_change s inst ws :
  settled s →
  exposed (step s (StateChange inst ws)) =
    mkContext (sdk (exposed s)) (isInitialized (exposed s))
      (isLoading (exposed s)) (error (exposed s))
      (if decide (listeners (sdk_obj (widget s) inst) = [] ∨ phase s ≠ Mounted)
       then state (exposed s) else ws).
Proof.
  intros Hs. rewrite step_state_change by done. unfold exposed.
  cbn [sync rendered]. rewrite value_listeners. cbn zeta.
  rewrite listeners_emit. destruct Hs as (<- & _). by destruct s.
Qed.

Lemma frame_step_state_change s inst ws :
  settled s →
  phase (step s (StateChange inst ws)) = phase s ∧
  pending (step s (StateChange inst ws)) = pending s ∧
  next_run (step s (StateChange inst ws)) = next_run s ∧
  props (step s (StateChange inst ws)) = props s.
Proof.
  intros Hs. rewrite step_state_change by done.
  cbn [sync phase pending next_run props].
  pose proof (frame_listeners ws
    (listeners (sdk_obj (widget_emit inst ws (widget s)) inst))
    (with_widget (widget_emit inst ws) s))
    as (_ & -> & -> & _ & _ & _ & _ & -> & -> & _)%frame_inv.
  by destruct s.
Qed.

Lemma onError_calls_catch r err w :
  onError_calls (logs (catch_calls r err) w) =
  onError_calls w ++
  match run_onError r with Some cb => [(cb, sdkError_of err)] | None => [] end.
Proof.
  destruct r as [? ? [[? [?|]]|] ?]; unfold catch_calls, logs; cbn [foldl run_onError cb_throws];
    rewrite ?onError_calls_log; cbn; rewrite ?app_nil_r; done.
Qed.

Lemma find_run_fresh (l : list Run) n r :
  Forall (λ r, run_id r < n) l → run_id r = n →
  head (filter (λ r, run_id r = n) (l ++ [r])) = Some r.
Proof.
  intros Hl Hr. rewrite filter_app.
  assert (filter (λ r, run_id r = n) l = []) as ->.
  { induction Hl as [|x l Hx Hl IH]; [done|].
    rewrite filter_cons_False by lia. done. }
  rewrite filter_cons_True by done. done.
Qed.

(** A run started by [ev] is pending under the next run identifier, with
    [isLoading] set and [error] cleared. *)
Lemma run_started s ev p :
  settled s → env s = Client → starts_run s ev p →
  let s1 := step s ev in
  phase s1 = Mounted ∧
  find_run (next_run s) s1 =
    Some (mkRun (next_run s) (config p) (onError p) (onInitialized p)) ∧
  exposed s1 =
    mkContext (sdk (exposed s)) (isInitialized (exposed s)) true None
      (state (exposed s)).
Proof.
  intros Hs He Hst. cbn zeta. pose proof Hs as (Hc & Hpd & _ & _ & Hph).
  destruct Hst as [s p Hp|s p Hp Hne].
  - rewrite step_mount_client by done. rewrite Hp in Hph.
    destruct Hph as (Hi & _ & _ & _ & _ & Hn & _).
    unfold exposed. rewrite <- Hc, Hi, Hn. done.
  - rewrite step_rerender_changed by done. unfold exposed, find_run. cbn.
    rewrite <- Hc. split_and!; try done. by apply find_run_fresh.
Qed.

(** Once unmounted, the provider stays unmounted and no listener is ever
    removed again. *)
Lemma step_unmounted s ev :
  settled s → phase s = Unmounted →
  phase (step s ev) = Unmounted ∧
  cells (step s ev) = cells s ∧
  unsubscribe_calls (widget (step s ev)) = unsubscribe_calls (widget s) ∧
  ∀ i l, l ∈ listeners (sdk_obj (widget s) i) →
         l ∈ listeners (sdk_obj (widget (step s ev)) i).
Proof.
  intros Hs Hp. destruct ev as [p|p|id inst|id err|inst ws|].
  - unfold step. by rewrite Hp.
  - unfold step. by rewrite Hp.
  - destruct (find_run id s) as [r|] eqn:Hr; [|by unfold step; rewrite Hr].
    rewrite (step_resolve s id r inst) by done. cbn [sync phase cells].
    pose proof (frame_resolved r inst (drop_run id s)) as (_ & -> & _)%frame_inv.
    rewrite cells_resolved_unmounted by (destruct s; cbn in *; by rewrite Hp).
    rewrite widget_sync.
    destruct (resolved_effect r inst (drop_run id s)) as (Ho & _ & _ & _ & ->).
    split_and!; try (by destruct s).
    intros i l Hl. rewrite Ho. case_decide as Heq; [|done]. subst i. cbn.
    apply elem_of_app. by left.
  - destruct (find_run id s) as [r|] eqn:Hr; [|by unfold step; rewrite Hr].
    rewrite (step_reject s id r err) by done. cbn [sync phase cells].
    pose proof (frame_catch r err (drop_run id s)) as (_ & -> & _)%frame_inv.
    rewrite cells_catch_unmounted by (destruct s; cbn in *; by rewrite Hp).
    rewrite widget_sync.
    destruct (catch_effect r err (drop_run id s)) as (Ho & _ & _ & _ & ->).
    split_and!; try (by destruct s).
    intros i l Hl. by rewrite Ho.
  - destruct (frame_step_state_change s inst ws Hs) as (-> & _).
    rewrite widget_step_state_change by done.
    rewrite step_state_change by done. cbn [sync cells].
    rewrite listeners_unmounted by (destruct s; cbn in *; by rewrite Hp).
    split_and!; try (by destruct s).
    intros i l Hl. by rewrite listeners_emit.
  - unfold step. by rewrite Hp.
Qed.

Lemma run_events_unmounted s evs :
  settled s → phase s = Unmounted →
  phase (run_events s evs) = Unmounted ∧
  cells (run_events s evs) = cells s ∧
  unsubscribe_calls (widget (run_events s evs)) = unsubscribe_calls (widget s) ∧
  ∀ i l, l ∈ listeners (sdk_obj (widget s) i) →
         l ∈ listeners (sdk_obj (widget (run_events s evs)) i).
Proof.
  intros Hs Hp. induction evs as [|ev evs IH] using rev_ind; [done|].
  rewrite run_events_snoc. destruct IH as (IHp & IHc & IHu & IHl).
  destruct (step_unmounted (run_events s evs) ev) as (-> & -> & -> & Hl);
    [by apply settled_run_events|done|].
  split_and!; auto.
Qed.

(** The renders of an event reach a fixed point within [render_fuel]. *)
Lemma step_quiescent s ev :
  reachable s → render (step s ev) = step s ev.
Proof.
  intros Hs%reachable_settled. pose proof (settled_step s ev Hs) as Hs'.
  destruct (decide (phase (step s ev) = Mounted)) as [Hp|Hp].
  - rewrite render_up_to_date; [apply sync_id, Hs'|done|].
    intros He. by apply settled_up_to_date.
  - unfold render. by destruct (phase (step s ev)).
Qed.

(** ** Single events and short executions, observed *)

(** The context value after one event, from the one before it. *)
Lemma exposed_step_reject s id r err :
  settled s → phase s = Mounted → find_run id s = Some r →
  exposed (step s (InitReject id err)) =
    mkContext (sdk (exposed s)) (isInitialized (exposed s)) false
      (Some (sdkError_of err)) (state (exposed s)).
Proof.
  intros Hs Hp Hr. rewrite (step_reject s id r err) by done.
  unfold exposed. cbn [sync rendered]. rewrite value_catch by by destruct s.
  destruct Hs as (<- & _). by destruct s.
Qed.

Lemma exposed_step_unmounted s ev :
  settled s → phase s = Unmounted → exposed (step s ev) = exposed s.
Proof.
  intros Hs Hp. pose proof (settled_step s ev Hs) as (Hc' & _).
  destruct (step_unmounted s ev Hs Hp) as (_ & Hc & _).
  unfold exposed. rewrite <- Hc', Hc. by destruct Hs as (-> & _).
Qed.

Lemma pending_not_mounted s : settled s → phase s = NotMounted → pending s = [].
Proof. intros (_ & _ & _ & _ & H) Hp. rewrite Hp in H. apply H. Qed.

Lemma find_run_not_mounted s id :
  settled s → phase s = NotMounted → find_run id s = None.
Proof. intros Hs Hp. unfold find_run. by rewrite pending_not_mounted. Qed.

Lemma exposed_not_mounted s :
  settled s → phase s = NotMounted →
  exposed s = mkContext None false false None initial_state.
Proof.
  intros (Hc & _ & _ & _ & H) Hp. rewrite Hp in H. destruct H as (Hi & _).
  unfold exposed. by rewrite <- Hc, Hi.
Qed.

Lemma exposed_step s ev :
  settled s →
  exposed (step s ev) =
    match ev with
    | Mount p =>
        if decide (phase s = NotMounted ∧ env s = Client)
        then mkContext None false true None initial_state
        else exposed s
    | Rerender p =>
        if decide (phase s = Mounted ∧ env s = Client ∧ p ≠ props s)
        then mkContext (sdk (exposed s)) (isInitialized (exposed s)) true None
               (state (exposed s))
        else exposed s
    | InitResolve id inst =>
        match find_run id s with
        | Some r =>
            if decide (phase s = Mounted)
            then mkContext (Some inst) true false
                   (match run_onInitialized r with
                    | Some (mkCallback _ (Some v)) => Some (sdkError_of v)
                    | _ => error (exposed s)
                    end)
                   (snapshot (sdk_obj (widget s) inst))
            else exposed s
        | None => exposed s
        end
    | InitReject id err =>
        match find_run id s with
        | Some r =>
            if decide (phase s = Mounted)
            then mkContext (sdk (exposed s)) (isInitialized (exposed s)) false
                   (Some (sdkError_of err)) (state (exposed s))
            else exposed s
        | None => exposed s
        end
    | StateChange inst ws =>
        mkContext (sdk (exposed s)) (isInitialized (exposed s))
          (isLoading (exposed s)) (error (exposed s))
          (if decide (listeners (sdk_obj (widget s) inst) = [] ∨ phase s ≠ Mounted)
           then state (exposed s) else ws)
    | Unmount => exposed s
    end.
Proof.
  intros Hs. destruct ev as [p|p|id inst|id err|inst ws|].
  - case_decide as H.
    + destruct H as [Hp He]. rewrite step_mount_client by done. reflexivity.
    + destruct (phase s) eqn:Hp; try (unfold step; rewrite Hp; done).
      destruct (env s) eqn:He; [naive_solver|].
      rewrite step_mount_server, (exposed_not_mounted s) by done. reflexivity.
  - case_decide as H.
    + destruct H as (Hp & He & Hne). rewrite step_rerender_changed by done.
      unfold exposed. cbn. by destruct Hs as (-> & _).
    + destruct (phase s) eqn:Hp; try (unfold step; rewrite Hp; done).
      destruct (env s) eqn:He.
      * destruct (decide (p = props s)) as [->|Hne]; [|naive_solver].
        by rewrite step_rerender_same.
      * rewrite step_rerender_server by done. by destruct s.
  - destruct (find_run id s) as [r|] eqn:Hr; [|by unfold step; rewrite Hr].
    case_decide as Hp; [by apply exposed_step_resolve|].
    destruct (phase s) eqn:Hp'; [|done|by apply exposed_step_unmounted].
    by rewrite find_run_not_mounted in Hr.
  - destruct (find_run id s) as [r|] eqn:Hr; [|by unfold step; rewrite Hr].
    case_decide as Hp; [by apply (exposed_step_reject s id r)|].
    destruct (phase s) eqn:Hp'; [|done|by apply exposed_step_unmounted].
    by rewrite find_run_not_mounted in Hr.
  - by apply exposed_state_change.
  - destruct (phase s) eqn:Hp; try (unfold step; rewrite Hp; done).
    by rewrite step_unmount.
Qed.

Lemma reachable_step s ev : reachable s → reachable (step s ev).
Proof.
  intros (e & evs & ->). exists e, (evs ++ [ev]). by rewrite run_events_snoc.
Qed.

Lemma reachable_run_events s evs : reachable s → reachable (run_events s evs).
Proof.
  intros Hs. induction evs as [|ev evs IH] using rev_ind; [done|].
  rewrite run_events_snoc. by apply reachable_step.
Qed.

(** The boundary calls of the two continuations. *)
Lemma calls_logs cs w : calls (logs cs w) = calls w ++ cs.
Proof.
  induction cs as [|c cs IH] using rev_ind; [by rewrite app_nil_r|].
  rewrite logs_snoc. unfold log. cbn. by rewrite IH, app_assoc.
Qed.

Lemma calls_step_resolve s id r inst :
  settled s → find_run id s = Some r →
  calls (widget (step s (InitResolve id inst))) =
    calls (widget s) ++
    [CallOn inst (next_listener (widget s)); CallGetState inst] ++
    resolved_calls r inst.
Proof.
  intros Hs Hr. rewrite (step_resolve s id r inst) by done.
  rewrite widget_sync, widget_resolved, calls_logs.
  unfold store_unsubscribe, sdk_on, put_sdk, log, fresh_listener. cbn.
  by rewrite <- !app_assoc.
Qed.

Lemma calls_step_reject s id r err :
  settled s → find_run id s = Some r →
  calls (widget (step s (InitReject id err))) =
    calls (widget s) ++ catch_calls r err.
Proof.
  intros Hs Hr. rewrite (step_reject s id r err) by done.
  by rewrite widget_sync, widget_catch, calls_logs.
Qed.

Lemma run_events_cons s ev evs :
  run_events s (ev :: evs) = run_events (step s ev) evs.
Proof. done. Qed.

Lemma run_events_nil s : run_events s [] = s.
Proof. done. Qed.

(** What one event leaves behind, for the scenarios below. *)
Lemma observe_mount p :
  let s' := step (initial Client) (Mount p) in
  settled s' ∧ env s' = Client ∧ phase s' = Mounted ∧ props s' = p ∧
  effect_cleanup s' = Some None ∧
  pending s' = [mkRun 0 (config p) (onError p) (onInitialized p)] ∧
  next_run s' = 1 ∧ exposed s' = mkContext None false true None initial_state ∧
  (∀ k, sdk_obj (widget s') k = fresh_sdk) ∧
  next_listener (widget s') = 0 ∧
  on_calls (widget s') = [] ∧
  init_calls (widget s') = [config p] ∧
  unsubscribe_calls (widget s') = [].
Proof.
  cbn zeta. split; [apply settled_step, settled_initial|].
  by rewrite (step_mount_client _ p (settled_initial Client)).
Qed.

Lemma observe_resolve s id r inst :
  settled s → phase s = Mounted → find_run id s = Some r →
  let s' := step s (InitResolve id inst) in
  settled s' ∧ env s' = env s ∧ phase s' = Mounted ∧ props s' = props s ∧
  effect_cleanup s' = effect_cleanup s ∧
  pending s' = filter (λ r, run_id r ≠ id) (pending s) ∧
  next_run s' = next_run s ∧
  sdk (exposed s') = Some inst ∧
  isInitialized (exposed s') = true ∧
  isLoading (exposed s') = false ∧
  (∀ k, sdk_obj (widget s') k =
        if decide (inst = k)
        then mkSdkObject
               (listeners (sdk_obj (widget s) inst) ++ [next_listener (widget s)])
               (snapshot (sdk_obj (widget s) inst))
               (Some (next_listener (widget s)))
        else sdk_obj (widget s) k) ∧
  next_listener (widget s') = S (next_listener (widget s)) ∧
  on_calls (widget s') = on_calls (widget s) ++ [(inst, next_listener (widget s))] ∧
  init_calls (widget s') = init_calls (widget s) ∧
  unsubscribe_calls (widget s') = unsubscribe_calls (widget s).
Proof.
  intros Hs Hp Hr. cbn zeta. split; [by apply settled_step|].
  rewrite (exposed_step_resolve s id r inst) by done.
  rewrite (step_resolve s id r inst) by done.
  cbn [sync env phase props effect_cleanup pending next_run widget].
  pose proof (frame_resolved r inst (drop_run id s))
    as (-> & -> & -> & _ & _ & _ & -> & -> & -> & _)%frame_inv.
  destruct (resolved_effect r inst (drop_run id s)) as (Ho & -> & -> & -> & ->).
  destruct s; cbn in *. by split_and!.
Qed.

Lemma observe_rerender s p :
  settled s → env s = Client → phase s = Mounted → p ≠ props s →
  let s' := step s (Rerender p) in
  settled s' ∧ env s' = Client ∧ phase s' = Mounted ∧ props s' = p ∧
  effect_cleanup s' = Some (sdk (exposed s)) ∧
  pending s' =
    pending s ++ [mkRun (next_run s) (config p) (onError p) (onInitialized p)] ∧
  next_run s' = S (next_run s) ∧
  sdk (exposed s') = sdk (exposed s) ∧
  widget s' = log (CallInit (config p)) (widget (run_cleanup s)).
Proof.
  intros Hs He Hp Hne. cbn zeta. split; [by apply settled_step|].
  rewrite step_rerender_changed by done. unfold exposed. cbn.
  destruct Hs as (<- & _). by split_and!.
Qed.

Lemma next_listener_log c w : next_listener (log c w) = next_listener w.
Proof. done. Qed.

Lemma run_cleanup_idle s : effect_cleanup s = Some None → run_cleanup s = s.
Proof. unfold run_cleanup. by intros ->. Qed.

Lemma widget_run_cleanup s inst l :
  effect_cleanup s = Some (Some inst) →
  _unsubscribeStateChange (sdk_obj (widget s) inst) = Some l →
  widget (run_cleanup s) = sdk_unsubscribe inst l (widget s).
Proof.
  intros Hc Hu. unfold run_cleanup, cleanup. rewrite Hc, Hu. by destruct s.
Qed.

Lemma sdk_obj_unsubscribe inst l w k :
  sdk_obj (sdk_unsubscribe inst l w) k =
    if decide (inst = k)
    then mkSdkObject (filter (λ x, x ≠ l) (listeners (sdk_obj w inst)))
           (snapshot (sdk_obj w inst)) (_unsubscribeStateChange (sdk_obj w inst))
    else sdk_obj w k.
Proof. unfold sdk_unsubscribe. by rewrite sdk_obj_log, sdk_obj_put. Qed.

Lemma unsubscribe_calls_unsubscribe inst l w :
  unsubscribe_calls (sdk_unsubscribe inst l w) = unsubscribe_calls w ++ [(inst, l)].
Proof. unfold sdk_unsubscribe. by rewrite unsubscribe_calls_log. Qed.

Lemma observe_unmount s inst l :
  settled s → env s = Client → phase s = Mounted →
  effect_cleanup s = Some (Some inst) →
  _unsubscribeStateChange (sdk_obj (widget s) inst) = Some l →
  let s' := step s Unmount in
  settled s' ∧ phase s' = Unmounted ∧ pending s' = pending s ∧
  unsubscribe_calls (widget s') = unsubscribe_calls (widget s) ++ [(inst, l)] ∧
  (∀ k, sdk_obj (widget s') k =
        if decide (inst = k)
        then mkSdkObject (filter (λ x, x ≠ l) (listeners (sdk_obj (widget s) inst)))
               (snapshot (sdk_obj (widget s) inst))
               (_unsubscribeStateChange (sdk_obj (widget s) inst))
        else sdk_obj (widget s) k).
Proof.
  intros Hs He Hp Hc Hu. cbn zeta. split; [by apply settled_step|].
  rewrite step_unmount by done. cbn [phase pending widget]. rewrite He.
  rewrite (widget_run_cleanup s inst l) by done.
  rewrite unsubscribe_calls_unsubscribe. split_and!; try done.
  intros k. apply sdk_obj_unsubscribe.
Qed.

(** Every listener on a handle was attached by a call of [on]. *)
Lemma listeners_after_cleanup s i l :
  l ∈ listeners (sdk_obj (widget (run_cleanup s)) i) →
  l ∈ listeners (sdk_obj (widget s) i).
Proof.
  unfold run_cleanup, cleanup.
  destruct (effect_cleanup s) as [[inst|]|]; try done.
  destruct (_unsubscribeStateChange (sdk_obj (widget s) inst)) as [l'|]; [|done].
  replace (widget (with_widget (sdk_unsubscribe inst l') s))
    with (sdk_unsubscribe inst l' (widget s)) by by destruct s.
  rewrite sdk_obj_unsubscribe. case_decide as Heq; [|done]. subst i. cbn.
  by intros [_ ?]%list_elem_of_filter.
Qed.

Lemma listeners_registered s i l :
  reachable s →
  l ∈ listeners (sdk_obj (widget s) i) → (i, l) ∈ on_calls (widget s).
Proof.
  intros (e & evs & ->). revert i l.
  induction evs as [|ev evs IH] using rev_ind; intros i l.
  - cbn. by intros ?%elem_of_nil.
  - rewrite run_events_snoc.
    pose proof (settled_run_events (initial e) evs (settled_initial e)) as Hs.
    set (s := run_events (initial e) evs) in *. clearbody s.
    pose proof Hs as (_ & _ & _ & _ & Hph).
    destruct ev as [p|p|id inst|id err|inst ws|].
    + destruct (phase s) eqn:Hp; try (unfold step; rewrite Hp; by apply IH).
      destruct (env s) eqn:He.
      * rewrite step_mount_client by done. cbn [widget].
        rewrite sdk_obj_log, on_calls_log, app_nil_r. apply IH.
      * rewrite step_mount_server by done. apply IH.
    + destruct (phase s) eqn:Hp; try (unfold step; rewrite Hp; by apply IH).
      destruct (env s) eqn:He.
      * destruct (decide (p = props s)) as [->|Hne].
        { rewrite step_rerender_same by done. apply IH. }
        rewrite step_rerender_changed by done. cbn [widget].
        rewrite sdk_obj_log, on_calls_log, app_nil_r, on_calls_run_cleanup.
        intros ?%listeners_after_cleanup. by apply IH.
      * rewrite step_rerender_server by done.
        replace (widget (with_props p Mounted s)) with (widget s) by by destruct s.
        apply IH.
    + destruct (find_run id s) as [r|] eqn:Hr; [|unfold step; rewrite Hr; by apply IH].
      rewrite (step_resolve s id r inst) by done. rewrite widget_sync.
      destruct (resolved_effect r inst (drop_run id s)) as (-> & _ & -> & _).
      replace (widget (drop_run id s)) with (widget s) by by destruct s.
      case_decide as Heq.
      * subst i. cbn. intros [Hl| ->%list_elem_of_singleton]%elem_of_app.
        -- apply elem_of_app. left. by apply IH.
        -- apply elem_of_app. right. set_solver.
      * intros Hl. apply elem_of_app. left. by apply IH.
    + destruct (find_run id s) as [r|] eqn:Hr; [|unfold step; rewrite Hr; by apply IH].
      rewrite (step_reject s id r err) by done. rewrite widget_sync.
      destruct (catch_effect r err (drop_run id s)) as (-> & _ & -> & _).
      replace (widget (drop_run id s)) with (widget s) by by destruct s.
      apply IH.
    + rewrite widget_step_state_change by done.
      rewrite listeners_emit. apply IH.
    + destruct (phase s) eqn:Hp; try (unfold step; rewrite Hp; by apply IH).
      rewrite step_unmount by done. cbn [widget].
      destruct (env s); [|apply IH].
      rewrite on_calls_run_cleanup. intros ?%listeners_after_cleanup. by apply IH.
Qed.

(** ** Between the start of a run and its end *)

Lemma find_run_drop_other id i s :
  i ≠ id →
  head (filter (λ r, run_id r = id) (filter (λ r, run_id r ≠ i) (pending s))) =
  find_run id s.
Proof.
  intros Hne. unfold find_run. f_equal. rewrite list_filter_filter.
  apply list_filter_iff. intros r. split; [by intros [? _]|].
  intros Hr. split; [done|]. by rewrite Hr.
Qed.

(** A pending run stays pending, and a mounted provider mounted, through
    every event but the unmount and the settlement of that very call. *)
Lemma step_keeps_run s ev id r :
  settled s → phase s = Mounted → find_run id s = Some r →
  is_unmount ev = false → settles id ev = false →
  phase (step s ev) = Mounted ∧ find_run id (step s ev) = Some r.
Proof.
  intros Hs Hp Hr Hu Hst.
  destruct ev as [p|p|i inst|i err|inst ws|]; [| | | | |done].
  - unfold step. by rewrite Hp.
  - destruct (decide (p = props s)) as [->|Hne]; [by rewrite step_rerender_same|].
    destruct (env s) eqn:He.
    + rewrite step_rerender_changed by done. split; [done|].
      unfold find_run in *. cbn [pending]. rewrite filter_app.
      by destruct (filter _ (pending s)).
    + rewrite step_rerender_server by done. by destruct s.
  - cbn in Hst. apply bool_decide_eq_false in Hst.
    destruct (find_run i s) as [r'|] eqn:Hr'; [|unfold step; by rewrite Hr'].
    destruct (observe_resolve s i r' inst Hs Hp Hr')
      as (_ & _ & Hp' & _ & _ & Hpd & _).
    split; [done|]. unfold find_run at 1. rewrite Hpd.
    by rewrite find_run_drop_other.
  - cbn in Hst. apply bool_decide_eq_false in Hst.
    destruct (find_run i s) as [r'|] eqn:Hr'; [|unfold step; by rewrite Hr'].
    rewrite (step_reject s i r' err) by done.
    pose proof (frame_catch r' err (drop_run i s))
      as (_ & Hp' & _ & _ & _ & _ & _ & Hpd & _)%frame_inv.
    split.
    + cbn [sync phase]. rewrite Hp'. by destruct s.
    + unfold find_run at 1. cbn [sync pending]. rewrite Hpd.
      replace (pending (drop_run i s))
        with (filter (λ r, run_id r ≠ i) (pending s)) by by destruct s.
      by rewrite find_run_drop_other.
  - destruct (frame_step_state_change s inst ws Hs) as (Hp' & Hpd & _).
    split; [by rewrite Hp'|]. unfold find_run in *. by rewrite Hpd.
Qed.

Lemma run_stays_pending s evs id r :
  settled s → phase s = Mounted → find_run id s = Some r →
  Forall (λ e, is_unmount e = false ∧ settles id e = false) evs →
  settled (run_events s evs) ∧ phase (run_events s evs) = Mounted ∧
  find_run id (run_events s evs) = Some r.
Proof.
  revert s. induction evs as [|ev evs IH]; intros s Hs Hp Hr Hevs; [done|].
  apply Forall_cons in Hevs as [[Hu Hst] Hevs]. rewrite run_events_cons.
  destruct (step_keeps_run s ev id r) as (Hp' & Hr'); try done.
  apply IH; try done. by apply settled_step.
Qed.

(** [error] is only written by a run that starts, which clears it, and by
    a [catch] block. *)
Lemma step_keeps_error_clear s ev :
  settled s → error (exposed s) = None → fails s ev = false →
  error (exposed (step s ev)) = None.
Proof.
  intros Hs He Hf. rewrite exposed_step by done.
  destruct ev as [p|p|i inst|i err|inst ws|]; try done.
  - by case_decide.
  - by case_decide.
  - cbn in Hf. destruct (find_run i s) as [r|]; [|done].
    case_decide; [|done]. cbn.
    destruct (run_onInitialized r) as [[ref [v|]]|]; done.
  - cbn in Hf. apply bool_decide_eq_false in Hf.
    destruct (find_run i s) as [r|]; [|done]. by destruct Hf.
Qed.

Lemma no_failure_error s evs :
  settled s → error (exposed s) = None → no_failure s evs = true →
  error (exposed (run_events s evs)) = None.
Proof.
  revert s. induction evs as [|ev evs IH]; intros s Hs He Hnf; [done|].
  cbn [no_failure] in Hnf. apply andb_true_iff in Hnf as [Hf Hnf].
  apply negb_true_iff in Hf. rewrite run_events_cons.
  apply IH; [by apply settled_step| |done]. by apply step_keeps_error_clear.
Qed.

(** [isLoading] is only cleared by a [finally] block. *)
Lemma step_keeps_loading s ev :
  settled s → isLoading (exposed s) = true → is_settlement ev = false →
  isLoading (exposed (step s ev)) = true.
Proof.
  intros Hs Hl Hev. rewrite exposed_step by done.
  destruct ev as [p|p|i inst|i err|inst ws|]; try done; by case_decide.
Qed.

Lemma run_keeps_loading s evs :
  settled s → isLoading (exposed s) = true →
  Forall (λ e, is_settlement e = false) evs →
  isLoading (exposed (run_events s evs)) = true.
Proof.
  revert s. induction evs as [|ev evs IH]; intros s Hs Hl Hevs; [done|].
  apply Forall_cons in Hevs as [Hev Hevs]. rewrite run_events_cons.
  apply IH; [by apply settled_step| |done]. by apply step_keeps_loading.
Qed.

(** Before any call has resolved the provider exposes no handle and is
    not initialized. *)
Lemma not_initialized_before_resolution s :
  reachable s → on_calls (widget s) = [] →
  isInitialized (exposed s) = false ∧ sdk (exposed s) = None.
Proof.
  intros (e & evs & ->).
  induction evs as [|ev evs IH] using rev_ind.
  - intros _. rewrite run_events_nil.
    rewrite (exposed_not_mounted (initial e)); [done|apply settled_initial|done].
  - rewrite run_events_snoc.
    pose proof (settled_run_events (initial e) evs (settled_initial e)) as Hs.
    set (s := run_events (initial e) evs) in *. clearbody s.
    intros Hon.
    assert (on_calls (widget s) = [] ∧
            match ev with
            | InitResolve i _ => find_run i s = None
            | _ => True
            end) as [Hon' Hev].
    { destruct ev as [p|p|i inst|i err|inst ws|];
        try (split; [|done]; by rewrite on_calls_step in Hon).
      destruct (find_run i s) as [r|] eqn:Hr.
      - exfalso. revert Hon. rewrite (step_resolve s i r inst) by done.
        rewrite widget_sync.
        destruct (resolved_effect r inst (drop_run i s)) as (_ & _ & -> & _).
        by intros [_ ?]%app_eq_nil.
      - split; [|done]. revert Hon. unfold step. by rewrite Hr. }
    destruct (IH Hon') as [Hi Hk].
    rewrite exposed_step by done.
    destruct ev as [p|p|i inst|i err|inst ws|]; try done.
    + by case_decide.
    + by case_decide.
    + by rewrite Hev.
    + destruct (find_run i s); [|done]. by case_decide.
Qed.

(** ** What a cleanup releases *)

Lemma unsubscribe_calls_rerender s p :
  settled s → env s = Client → phase s = Mounted → p ≠ props s →
  unsubscribe_calls (widget (step s (Rerender p))) =
    unsubscribe_calls (widget s) ++
    match effect_cleanup s with
    | Some (Some inst) =>
        match _unsubscribeStateChange (sdk_obj (widget s) inst) with
        | Some l => [(inst, l)]
        | None => []
        end
    | _ => []
    end.
Proof.
  intros Hs He Hp Hne. rewrite step_rerender_changed by done. cbn [widget].
  rewrite unsubscribe_calls_log, app_nil_r.
  destruct (effect_cleanup s) as [[inst|]|] eqn:Hc.
  - destruct (_unsubscribeStateChange (sdk_obj (widget s) inst)) as [l|] eqn:Hu.
    + by rewrite (widget_run_cleanup s inst l), unsubscribe_calls_unsubscribe.
    + unfold run_cleanup, cleanup. by rewrite Hc, Hu, app_nil_r.
  - by rewrite run_cleanup_idle, app_nil_r.
  - unfold run_cleanup. by rewrite Hc, app_nil_r.
Qed.

Lemma listeners_rerender s p inst l :
  settled s → env s = Client → phase s = Mounted → p ≠ props s →
  effect_cleanup s = Some (Some inst) →
  _unsubscribeStateChange (sdk_obj (widget s) inst) = Some l →
  listeners (sdk_obj (widget (step s (Rerender p))) inst) =
    filter (λ x, x ≠ l) (listeners (sdk_obj (widget s) inst)).
Proof.
  intros Hs He Hp Hne Hc Hu. rewrite step_rerender_changed by done. cbn [widget].
  rewrite sdk_obj_log, (widget_run_cleanup s inst l), sdk_obj_unsubscribe by done.
  by rewrite decide_True.
Qed.

(** A listener stays attached, and what a successful run has set stays
    set, through every event at which no cleanup runs. *)
Lemma step_keeps_listener s ev inst l :
  settled s → phase s = Mounted →
  l ∈ listeners (sdk_obj (widget s) inst) →
  runs_cleanup s ev = false →
  phase (step s ev) = Mounted ∧
  l ∈ listeners (sdk_obj (widget (step s ev)) inst) ∧
  (isInitialized (exposed s) = true → isInitialized (exposed (step s ev)) = true).
Proof.
  intros Hs Hp Hl Hev.
  assert (isInitialized (exposed s) = true →
          isInitialized (exposed (step s ev)) = true) as Hinit.
  { intros Hi. rewrite exposed_step by done.
    destruct ev as [p|p|i inst'|i err|inst' ws|]; try done.
    - rewrite decide_False; [done|]. intros [? _]. congruence.
    - by case_decide.
    - destruct (find_run i s); [|done]. by case_decide.
    - destruct (find_run i s); [|done]. by case_decide. }
  split_and!; [| |done].
  - destruct ev as [p|p|i inst'|i err|inst' ws|]; [| | | | |done].
    + unfold step. by rewrite Hp.
    + cbn in Hev. apply bool_decide_eq_false, dec_stable in Hev. subst p.
      by rewrite step_rerender_same.
    + destruct (find_run i s) as [r|] eqn:Hr; [|unfold step; by rewrite Hr].
      by destruct (observe_resolve s i r inst' Hs Hp Hr) as (_ & _ & ? & _).
    + destruct (find_run i s) as [r|] eqn:Hr; [|unfold step; by rewrite Hr].
      rewrite (step_reject s i r err) by done. cbn [sync phase].
      pose proof (frame_catch r err (drop_run i s)) as (_ & -> & _)%frame_inv.
      by destruct s.
    + by destruct (frame_step_state_change s inst' ws Hs) as (-> & _).
  - destruct ev as [p|p|i inst'|i err|inst' ws|]; [| | | | |done].
    + unfold step. by rewrite Hp.
    + cbn in Hev. apply bool_decide_eq_false, dec_stable in Hev. subst p.
      by rewrite step_rerender_same.
    + destruct (find_run i s) as [r|] eqn:Hr; [|unfold step; by rewrite Hr].
      destruct (observe_resolve s i r inst' Hs Hp Hr)
        as (_ & _ & _ & _ & _ & _ & _ & _ & _ & _ & -> & _).
      case_decide as Heq; [|done]. subst inst'. cbn.
      apply elem_of_app. by left.
    + destruct (find_run i s) as [r|] eqn:Hr; [|unfold step; by rewrite Hr].
      rewrite (step_reject s i r err) by done. rewrite widget_sync.
      destruct (catch_effect r err (drop_run i s)) as (-> & _).
      by replace (widget (drop_run i s)) with (widget s) by by destruct s.
    + by rewrite widget_step_state_change, listeners_emit.
Qed.

Lemma run_keeps_listener s evs inst l :
  settled s → phase s = Mounted →
  l ∈ listeners (sdk_obj (widget s) inst) →
  no_cleanup s evs = true →
  settled (run_events s evs) ∧ phase (run_events s evs) = Mounted ∧
  l ∈ listeners (sdk_obj (widget (run_events s evs)) inst) ∧
  (isInitialized (exposed s) = true →
   isInitialized (exposed (run_events s evs)) = true).
Proof.
  revert s. induction evs as [|ev evs IH]; intros s Hs Hp Hl Hnc; [done|].
  cbn [no_cleanup] in Hnc. apply andb_true_iff in Hnc as [Hc Hnc].
  apply negb_true_iff in Hc. rewrite run_events_cons.
  destruct (step_keeps_listener s ev inst l) as (Hp' & Hl' & Hi'); try done.
  destruct (IH (step s ev)) as (H1 & H2 & H3 & H4); try done.
  { by apply settled_step. }
  split_and!; auto.
Qed.

(** [stateChange] events write the [state] cell only. *)
Lemma state_changes_keep_fields s evs :
  settled s → Forall (λ e, is_state_change e = true) evs →
  sdk (exposed (run_events s evs)) = sdk (exposed s) ∧
  isInitialized (exposed (run_events s evs)) = isInitialized (exposed s) ∧
  isLoading (exposed (run_events s evs)) = isLoading (exposed s) ∧
  error (exposed (run_events s evs)) = error (exposed s).
Proof.
  revert s. induction evs as [|ev evs IH]; intros s Hs Hevs; [done|].
  apply Forall_cons in Hevs as [Hev Hevs]. rewrite run_events_cons.
  destruct ev as [| | | |inst ws|]; try done.
  destruct (IH (step s (StateChange inst ws))) as (-> & -> & -> & ->);
    [by apply settled_step|done|].
  by rewrite exposed_state_change.
Qed.

(** * The claims *)

(** ** Successful initialization *)

(** C1 (as amended).  Take a run of [initializeSDK] started by a mount or
    by a change of props in a browser, whose [onInitialized] callback, if
    any, returns, and whose call of [YourGPT.init] resolves while the
    provider is still mounted; between the start and the resolution
    anything may happen but the unmount and the settlement of this very
    call: renders, [stateChange] events, other runs starting and ending.
    Once started, [isLoading] is [true] and [error] is [null], and
    [isLoading] stays [true] until some call settles.  At the resolution
    the provider exposes the handle, [isLoading = false] and
    [isInitialized = true]; [error] is left as it was just before, so it
    is [null] provided no other run has ended in its [catch] block since
    this run started.  On the first run [isInitialized] was [false]
    before. *)
Theorem successful_init_run s ev p evs inst :
  reachable s → env s = Client → starts_run s ev p →
  (∀ cb, onInitialized p = Some cb → cb_throws cb = None) →
  Forall (λ e, is_unmount e = false ∧ settles (next_run s) e = false) evs →
  let s1 := step s ev in
  let s2 := run_events s1 evs in
  let s3 := step s2 (InitResolve (next_run s) inst) in
  find_run (next_run s) s2 =
    Some (mkRun (next_run s) (config p) (onError p) (onInitialized p)) ∧
  isLoading (exposed s1) = true ∧ error (exposed s1) = None ∧
  isInitialized (exposed s1) = isInitialized (exposed s) ∧
  (phase s = NotMounted → isInitialized (exposed s) = false) ∧
  (Forall (λ e, is_settlement e = false) evs → isLoading (exposed s2) = true) ∧
  useContext s3 = Some (exposed s3) ∧
  sdk (exposed s3) = Some inst ∧
  isLoading (exposed s3) = false ∧
  isInitialized (exposed s3) = true ∧
  error (exposed s3) = error (exposed s2) ∧
  (no_failure s1 evs = true → error (exposed s3) = None).
Proof.
  intros Hs%reachable_settled He Hst Hcb Hevs. cbn zeta.
  destruct (run_started s ev p Hs He Hst) as (Hp1 & Hr1 & Hx1).
  assert (settled (step s ev)) as Hs1 by by apply settled_step.
  set (s1 := step s ev) in *.
  set (r := mkRun (next_run s) (config p) (onError p) (onInitialized p)) in *.
  destruct (run_stays_pending s1 evs (next_run s) r Hs1 Hp1 Hr1 Hevs)
    as (Hs2 & Hp2 & Hr2).
  assert (error (exposed (step (run_events s1 evs) (InitResolve (next_run s) inst))) =
          error (exposed (run_events s1 evs))) as He3.
  { rewrite (exposed_step_resolve _ _ r inst) by done. cbn.
    destruct (onInitialized p) as [[ref [v|]]|] eqn:Hoi; try done.
    by specialize (Hcb _ eq_refl). }
  split_and!; try done.
  - by rewrite Hx1.
  - by rewrite Hx1.
  - by rewrite Hx1.
  - intros Hp. by rewrite (exposed_not_mounted s).
  - intros Hns. apply run_keeps_loading; [done| |done]. by rewrite Hx1.
  - unfold useContext.
    by destruct (observe_resolve _ _ r inst Hs2 Hp2 Hr2) as (_ & _ & -> & _).
  - by rewrite (exposed_step_resolve _ _ r inst).
  - by rewrite (exposed_step_resolve _ _ r inst).
  - by rewrite (exposed_step_resolve _ _ r inst).
  - intros Hnf. rewrite He3. apply no_failure_error; [done| |done].
    by rewrite Hx1.
Qed.

Lemma successful_init_run_witness :
  let s1 := step (initial Client)
              (Mount (mkProps 1 None (Some (mkCallback 8 None)))) in
  let s2 := run_events s1
              [StateChange 4 (mkWidgetState true true true true 2 0);
               Rerender (mkProps 2 None None);
               InitResolve 1 5] in
  let s3 := step s2 (InitResolve 0 4) in
  isLoading (exposed s1) = true ∧
  sdk (exposed s3) = Some 4 ∧ isLoading (exposed s3) = false ∧
  isInitialized (exposed s3) = true ∧ error (exposed s3) = None.
Proof.
  cbn zeta.
  destruct (successful_init_run (initial Client)
    (Mount (mkProps 1 None (Some (mkCallback 8 None))))
    (mkProps 1 None (Some (mkCallback 8 None)))
    [StateChange 4 (mkWidgetState true true true true 2 0);
     Rerender (mkProps 2 None None);
     InitResolve 1 5] 4)
    as (_ & H0 & _ & _ & _ & _ & _ & H1 & H2 & H3 & _ & H4).
  - by exists Client, [].
  - reflexivity.
  - by constructor.
  - intros cb [= <-]. reflexivity.
  - repeat constructor.
  - split_and!; [exact H0|exact H1|exact H2|exact H3|].
    apply H4. reflexivity.
Defined.

(** C1 (as stated) fails: [YourGPT.init] resolves, the continuation runs,
    and [onInitialized], called inside the [try] block, throws; the [catch]
    block stores the error, so the run ends with [error] set while
    [isInitialized] is [true]. *)
Lemma resolved_init_with_throwing_callback :
  let p := mkProps 1 None (Some (mkCallback 8 (Some (JsString "boom")))) in
  let s1 := step (initial Client) (Mount p) in
  let s3 := step s1 (InitResolve 0 4) in
  find_run 0 s1 = Some (mkRun 0 1 None (Some (mkCallback 8 (Some (JsString "boom"))))) ∧
  on_calls (widget s3) = [(4, 0)] ∧
  isLoading (exposed s3) = false ∧
  isInitialized (exposed s3) = true ∧
  error (exposed s3) = Some (mkYourGPTError "boom") ∧
  error (exposed s3) ≠ None.
Proof.
  cbn zeta. split_and!; try reflexivity.
  by change (Some (mkYourGPTError "boom") ≠ None).
Qed.

(** C1 (as stated) fails in a second way: the props change while the first
    call is pending, the first call throws, and the second call resolves;
    the successful run ends with the error the other run stored, since a
    resolution does not write [error]. *)
Lemma resolved_init_after_failed_run :
  let s := run_events (initial Client)
             [Mount (mkProps 1 None None); Rerender (mkProps 2 None None);
              InitReject 0 (JsString "down")] in
  let s' := step s (InitResolve 1 4) in
  find_run 1 s = Some (mkRun 1 2 None None) ∧
  sdk (exposed s') = Some 4 ∧
  isLoading (exposed s') = false ∧
  isInitialized (exposed s') = true ∧
  error (exposed s') = Some (mkYourGPTError "down").
Proof.
  cbn zeta. split_and!; reflexivity.
Qed.

(** ** Failing initialization *)

(** C2 (as amended).  When a pending call of [YourGPT.init] throws [err],
    the error kept is [err] itself if it is a [YourGPTError] and [new
    YourGPTError(String(err))] otherwise, whose message is spelled out
    below for each kind of thrown value; [onError], when the run captured
    one, is called once with that error; [YourGPT.init] is not called
    again; and a mounted provider then exposes [isLoading = false], that
    error, and the [isInitialized], [sdk] and [state] it exposed before:
    [isInitialized] is still [false] when no call has resolved so far, and
    stays [true] after an earlier success. *)
Theorem failed_init_surfaces_error s id r err :
  reachable s → find_run id s = Some r →
  let s' := step s (InitReject id err) in
  let sdkError := sdkError_of err in
  (if instanceof_YourGPTError err then err = JsYourGPTError sdkError
   else sdkError = mkYourGPTError (js_String err)) ∧
  match err with
  | JsYourGPTError e => sdkError = e
  | JsUndefined => message sdkError = "undefined"
  | JsNull => message sdkError = "null"
  | JsBool b => message sdkError = if b then "true" else "false"
  | JsString m => message sdkError = m
  | JsObject => message sdkError = "[object Object]"
  | JsError name msg =>
      message sdkError =
        if decide (name = EmptyString) then msg
        else if decide (msg = EmptyString) then name
        else name +:+ ": " +:+ msg
  end ∧
  onError_calls (widget s') =
    onError_calls (widget s) ++
    match run_onError r with Some cb => [(cb, sdkError)] | None => [] end ∧
  init_calls (widget s') = init_calls (widget s) ∧
  (phase s = Mounted →
   useContext s' =
     Some (mkContext (sdk (exposed s)) (isInitialized (exposed s)) false
             (Some sdkError) (state (exposed s))) ∧
   isLoading (exposed s') = false ∧
   error (exposed s') ≠ None ∧
   isInitialized (exposed s') = isInitialized (exposed s) ∧
   sdk (exposed s') = sdk (exposed s) ∧
   (isInitialized (exposed s) = false → isInitialized (exposed s') = false) ∧
   (on_calls (widget s) = [] → isInitialized (exposed s') = false)).
Proof.
  intros Hr0 Hr. pose proof (reachable_settled s Hr0) as Hs. cbn zeta.
  split_and!.
  - by destruct err.
  - by destruct err as [| |[]| | | |].
  - rewrite (step_reject s id r err) by done.
    rewrite widget_sync, widget_catch, onError_calls_catch. by destruct s.
  - rewrite (step_reject s id r err) by done. rewrite widget_sync.
    by destruct (catch_effect r err (drop_run id s)) as (_ & _ & _ & -> & _).
  - intros Hp.
    assert (useContext (step s (InitReject id err)) =
            Some (exposed (step s (InitReject id err)))) as ->.
    { unfold useContext, exposed. rewrite (step_reject s id r err) by done.
      cbn [sync phase rendered].
      pose proof (frame_catch r err (drop_run id s)) as (_ & -> & _)%frame_inv.
      replace (phase (drop_run id s)) with (phase s) by by destruct s.
      by rewrite Hp. }
    rewrite (exposed_step_reject s id r err) by done. cbn.
    split_and!; try done.
    intros Hon. by apply not_initialized_before_resolution.
Qed.

Lemma failed_init_surfaces_error_witness :
  let s := run_events (initial Client)
             [Mount (mkProps 1 (Some (mkCallback 9 None)) None)] in
  let s' := step s (InitReject 0 (JsError "Error" "widget blocked")) in
  onError_calls (widget s') =
    [(mkCallback 9 None, mkYourGPTError "Error: widget blocked")] ∧
  useContext s' =
    Some (mkContext None false false
            (Some (mkYourGPTError "Error: widget blocked")) initial_state).
Proof.
  cbn zeta.
  destruct (failed_init_surfaces_error
    (run_events (initial Client) [Mount (mkProps 1 (Some (mkCallback 9 None)) None)])
    0 (mkRun 0 1 (Some (mkCallback 9 None)) None)
    (JsError "Error" "widget blocked")) as (_ & _ & H1 & _ & H2).
  - by exists Client, [Mount (mkProps 1 (Some (mkCallback 9 None)) None)].
  - reflexivity.
  - split.
    + rewrite H1. reflexivity.
    + destruct H2 as (H2 & _); [reflexivity|]. rewrite H2. reflexivity.
Defined.

(** C2 (as stated) fails: after a successful initialization the props
    change and the second call of [YourGPT.init] throws; the [catch] and
    [finally] blocks never write [isInitialized], so the failing run ends
    with [isInitialized] still [true], the handle of the first run still
    exposed, and [error] set. *)
Lemma failed_reinit_keeps_isInitialized :
  let s := run_events (initial Client)
             [Mount (mkProps 1 None None); InitResolve 0 4;
              Rerender (mkProps 2 None None)] in
  let s' := step s (InitReject 1 (JsString "down")) in
  find_run 1 s = Some (mkRun 1 2 None None) ∧
  isLoading (exposed s') = false ∧
  error (exposed s') = Some (mkYourGPTError "down") ∧
  sdk (exposed s') = Some 4 ∧
  isInitialized (exposed s') = true ∧
  isInitialized (exposed s') ≠ false.
Proof.
  cbn zeta. split_and!; try reflexivity.
  by change (true ≠ false).
Qed.

(** ** State changes *)

(** C3 (as amended).  A [stateChange] payload of a handle is put, as it
    is, in the exposed state, and touches nothing else of the context,
    when the provider is mounted and a listener it attached to the handle
    is still attached; otherwise it is dropped.  After a call of
    [YourGPT.init] has resolved on a mounted provider the listener is
    attached, and it stays so through every event at which no cleanup of
    the effect runs (no render with other props, no unmount): the payload
    of a later event of the handle becomes the exposed state, whatever
    the payloads before it were. *)
Theorem state_change_reflected_verbatim s id r inst evs ws :
  reachable s → phase s = Mounted → find_run id s = Some r →
  let s1 := step s (InitResolve id inst) in
  no_cleanup s1 evs = true →
  let s2 := run_events s1 evs in
  let s3 := step s2 (StateChange inst ws) in
  exposed s3 =
    mkContext (sdk (exposed s2)) (isInitialized (exposed s2))
      (isLoading (exposed s2)) (error (exposed s2)) ws ∧
  useContext s3 = Some (exposed s3) ∧
  isInitialized (exposed s3) = true ∧
  (Forall (λ e, is_state_change e = true) evs →
   exposed s3 =
     mkContext (sdk (exposed s1)) (isInitialized (exposed s1))
       (isLoading (exposed s1)) (error (exposed s1)) ws) ∧
  (∀ s', reachable s' →
     exposed (step s' (StateChange inst ws)) =
       mkContext (sdk (exposed s')) (isInitialized (exposed s'))
         (isLoading (exposed s')) (error (exposed s'))
         (if decide (listeners (sdk_obj (widget s') inst) = [] ∨ phase s' ≠ Mounted)
          then state (exposed s') else ws)).
Proof.
  intros Hs%reachable_settled Hp Hr. cbn zeta. intros Hnc.
  destruct (observe_resolve s id r inst Hs Hp Hr)
    as (Hs1 & _ & Hp1 & _ & _ & _ & _ & _ & Hi1 & _ & Ho1 & _).
  set (s1 := step s (InitResolve id inst)) in *.
  assert (next_listener (widget s) ∈ listeners (sdk_obj (widget s1) inst)) as Hl1.
  { rewrite Ho1, decide_True by done. cbn. apply elem_of_app. right. by left. }
  destruct (run_keeps_listener s1 evs inst _ Hs1 Hp1 Hl1 Hnc)
    as (Hs2 & Hp2 & Hl2 & Hi2).
  assert (exposed (step (run_events s1 evs) (StateChange inst ws)) =
    mkContext (sdk (exposed (run_events s1 evs)))
      (isInitialized (exposed (run_events s1 evs)))
      (isLoading (exposed (run_events s1 evs)))
      (error (exposed (run_events s1 evs))) ws) as Hx.
  { rewrite exposed_state_change by done. rewrite decide_False; [done|].
    intros [Hnil|]; [|done]. rewrite Hnil in Hl2. by apply elem_of_nil in Hl2. }
  split_and!.
  - done.
  - unfold useContext.
    by destruct (frame_step_state_change _ inst ws Hs2) as (-> & _); rewrite Hp2.
  - rewrite Hx. cbn. by apply Hi2.
  - intros Hevs. rewrite Hx.
    by destruct (state_changes_keep_fields s1 evs Hs1 Hevs) as (-> & -> & -> & ->).
  - intros s' Hs'%reachable_settled. by apply exposed_state_change.
Qed.

Lemma state_change_reflected_verbatim_witness :
  let s1 := step (run_events (initial Client) [Mount (mkProps 1 None None)])
              (InitResolve 0 4) in
  let s2 := run_events s1
              [StateChange 4 (mkWidgetState true true true true 2 0);
               Rerender (mkProps 1 None None);
               StateChange 7 (mkWidgetState true false true true 9 9)] in
  exposed (step s2 (StateChange 4 (mkWidgetState false true true true 5 1))) =
  mkContext (Some 4) true false None (mkWidgetState false true true true 5 1).
Proof.
  cbn zeta.
  destruct (state_change_reflected_verbatim
    (run_events (initial Client) [Mount (mkProps 1 None None)])
    0 (mkRun 0 1 None None) 4
    [StateChange 4 (mkWidgetState true true true true 2 0);
     Rerender (mkProps 1 None None);
     StateChange 7 (mkWidgetState true false true true 9 9)]
    (mkWidgetState false true true true 5 1))
    as [H _].
  - by exists Client, [Mount (mkProps 1 None None)].
  - reflexivity.
  - reflexivity.
  - reflexivity.
  - rewrite H. reflexivity.
Defined.

(** C3 (as stated) fails: after a successful initialization the props
    change twice; the cleanup of the run started by the first change
    captured the handle, so the second change unsubscribes the listener.
    The provider still exposes the handle and [isInitialized = true], yet
    a [stateChange] payload of the handle no longer reaches the exposed
    state. *)
Lemma state_change_dropped_after_reinit :
  let ws := mkWidgetState true true true true 2 0 in
  let s := run_events (initial Client)
             [Mount (mkProps 1 None None); InitResolve 0 4;
              Rerender (mkProps 2 None None); Rerender (mkProps 3 None None)] in
  let s' := step s (StateChange 4 ws) in
  useContext s' = Some (exposed s') ∧
  sdk (exposed s') = Some 4 ∧
  isInitialized (exposed s') = true ∧
  unsubscribe_calls (widget s) = [(4, 0)] ∧
  listeners (sdk_obj (widget s) 4) = [] ∧
  state (exposed s') = widget_idle_state ∧
  state (exposed s') ≠ ws.
Proof.
  cbn zeta. split_and!; try reflexivity.
  by change (widget_idle_state ≠ mkWidgetState true true true true 2 0).
Qed.

(** ** Teardown after a successful initialization *)

(** C4 (as the code behaves).  Mount, successful initialization, unmount:
    the cleanup closure that runs is the one created when the effect ran,
    and the [sdk] it captured is still [null], so it calls nothing.  The
    unsubscribe function stored on the handle is never called, at teardown
    or later, and the listener stays attached to the handle; only the
    cells of the unmounted provider are out of its reach. *)
Theorem unmount_after_success_never_unsubscribes p inst evs :
  let s1 := run_events (initial Client) [Mount p; InitResolve 0 inst] in
  let s2 := step s1 Unmount in
  let s3 := run_events s2 evs in
  sdk (exposed s1) = Some inst ∧
  _unsubscribeStateChange (sdk_obj (widget s1) inst) = Some 0 ∧
  effect_cleanup s1 = Some None ∧
  unsubscribe_calls (widget s2) = [] ∧
  listeners (sdk_obj (widget s2) inst) = [0] ∧
  unsubscribe_calls (widget s3) = [] ∧
  0 ∈ listeners (sdk_obj (widget s3) inst) ∧
  cells s3 = cells s2 ∧
  useContext s3 = None.
Proof.
  cbn zeta.
  change (run_events (initial Client) [Mount p; InitResolve 0 inst])
    with (step (step (initial Client) (Mount p)) (InitResolve 0 inst)).
  pose proof (settled_initial Client) as H0.
  assert (settled (step (initial Client) (Mount p))) as Hs by by apply settled_step.
  revert Hs. rewrite (step_mount_client _ p H0) by done.
  set (s := mkProvider _ _ _ _ _ _ _ _ _ _ _). intros Hs.
  set (r := mkRun 0 (config p) (onError p) (onInitialized p)).
  assert (find_run 0 s = Some r) as Hr by done.
  assert (settled (step (step s (InitResolve 0 inst)) Unmount)) as Hs2
    by by do 2 apply settled_step.
  revert Hs2. rewrite (step_resolve s 0 r inst Hs Hr). intros Hs2.
  pose proof (frame_resolved r inst (drop_run 0 s))
    as (He & Hp & _ & _ & _ & _ & Hu & _)%frame_inv.
  destruct (resolved_effect r inst (drop_run 0 s)) as (Ho & _ & _ & _ & Hun).
  set (s1 := initializeSDK_resolved r inst (drop_run 0 s)) in *.
  destruct (run_events_unmounted (step (sync s1) Unmount) evs Hs2)
    as (Hp3 & Hc3 & Hun3 & Hl3); [by rewrite step_unmount|].
  unfold useContext. rewrite Hp3, Hc3. clear Hp3 Hc3.
  revert Hun3 Hl3. clear Hs2.
  rewrite step_unmount by done. unfold exposed, run_cleanup. cbn.
  rewrite He, Hu. cbn. rewrite Ho, Hun.
  rewrite decide_True by done. cbn. intros Hun3 Hl3.
  split_and!; try done.
  - unfold s1. by rewrite value_resolved.
  - apply Hl3. cbn. rewrite Ho, decide_True by done. cbn. set_solver.
Qed.

(** ** Outside a browser *)

(** C5. In an execution whose [isBrowser] flag is [false] in every state it
    goes through, [YourGPT.init] is never called; and whenever the second
    effect runs in a render whose [isBrowser] is [false], it returns at its
    guard without calling [YourGPT.init] and without a pending run. *)
Theorem no_init_outside_browser :
  (∀ e evs,
     Forall (λ s, isBrowser (cells s) = false) (trace (initial e) evs) →
     init_calls (widget (run_events (initial e) evs)) = []) ∧
  (∀ s,
     isBrowser (rendered s) = false →
     init_calls (widget (init_effect s)) = init_calls (widget s) ∧
     pending (init_effect s) = pending s ∧
     effect_cleanup (init_effect s) = None).
Proof.
  split.
  - intros e evs.
    assert (settled (initial e)) as H0 by (apply reachable_settled; by exists e, []).
    assert (init_calls (widget (initial e)) = []) as Hi by done.
    revert H0 Hi. generalize (initial e). clear e.
    induction evs as [|ev evs IH]; intros s Hs Hi Htr; [done|].
    cbn [trace] in Htr. apply Forall_cons in Htr as [_ Htr].
    unfold run_events. cbn [foldl]. apply IH; [by apply settled_step| |done].
    rewrite init_calls_step; [done..|].
    destruct evs; cbn [trace] in Htr; by apply Forall_cons in Htr as [? _].
  - intros s Hb. unfold init_effect. rewrite Hb. by destruct s.
Qed.

Lemma no_init_outside_browser_witness :
  init_calls (widget (run_events (initial Server)
    [Mount (mkProps 1 None None); Rerender (mkProps 2 None None);
     StateChange 0 (mkWidgetState true true true true 1 0); Unmount])) = [] ∧
  init_calls (widget (init_effect (initial Client))) = [].
Proof.
  destruct no_init_outside_browser as [H1 H2]. split.
  - apply H1. repeat constructor.
  - by destruct (H2 (initial Client) eq_refl) as (-> & _).
Defined.

(** ** Teardown while the call is pending *)

(** C6 (as the code behaves).  [initializeSDK] has no cancellation: when
    the provider is unmounted while a call of [YourGPT.init] is pending,
    the teardown attaches no listener and the run stays pending, but if
    the call then resolves, its continuation still attaches a new listener
    to the handle and stores its unsubscribe function for a cleanup,
    although the only cleanup of this provider has already run.  Whatever this provider
    goes through afterwards, it never calls an unsubscribe function and
    the listener stays attached; the unmounted provider exposes nothing
    and its cells are not written.  If the call throws instead, no
    listener is attached. *)
Theorem unmount_while_init_pending s id r inst :
  reachable s → phase s = Mounted → find_run id s = Some r →
  let s1 := step s Unmount in
  let s2 := step s1 (InitResolve id inst) in
  let l := next_listener (widget s1) in
  find_run id s1 = Some r ∧
  on_calls (widget s1) = on_calls (widget s) ∧
  on_calls (widget s2) = on_calls (widget s1) ++ [(inst, l)] ∧
  listeners (sdk_obj (widget s2) inst) =
    listeners (sdk_obj (widget s1) inst) ++ [l] ∧
  (∀ evs,
     let s3 := run_events s2 evs in
     l ∈ listeners (sdk_obj (widget s3) inst) ∧
     unsubscribe_calls (widget s3) = unsubscribe_calls (widget s1) ∧
     cells s3 = cells s1 ∧
     useContext s3 = None) ∧
  (∀ err, on_calls (widget (step s1 (InitReject id err))) = on_calls (widget s1)).
Proof.
  intros Hs%reachable_settled Hp Hr. cbn zeta.
  assert (settled (step s Unmount)) as Hs1 by by apply settled_step.
  assert (phase (step s Unmount) = Unmounted ∧ find_run id (step s Unmount) = Some r ∧
          on_calls (widget (step s Unmount)) = on_calls (widget s)) as (Hp1 & Hr1 & Hoc1).
  { rewrite step_unmount by done. split_and!; try done. cbn.
    destruct (env s); [apply on_calls_run_cleanup|done]. }
  set (s1 := step s Unmount) in *.
  assert (settled (step s1 (InitResolve id inst))) as Hs2 by by apply settled_step.
  destruct (step_unmounted s1 (InitResolve id inst) Hs1 Hp1) as (Hp2 & Hc2 & Hu2 & _).
  destruct (resolved_effect r inst (drop_run id s1)) as (Ho & _ & Hoc & _ & Hun).
  assert (listeners (sdk_obj (widget (step s1 (InitResolve id inst))) inst) =
          listeners (sdk_obj (widget s1) inst) ++ [next_listener (widget s1)]) as Hl2.
  { rewrite (step_resolve s1 id r inst) by done. rewrite widget_sync, Ho.
    by rewrite decide_True. }
  split_and!; try done.
  - by rewrite (step_resolve s1 id r inst).
  - intros evs. cbn zeta.
    destruct (run_events_unmounted _ evs Hs2 Hp2) as (Hp3 & Hc3 & Hu3 & Hl3).
    split_and!.
    + apply Hl3. rewrite Hl2. set_solver.
    + by rewrite Hu3.
    + by rewrite Hc3.
    + unfold useContext. by rewrite Hp3.
  - intros err. by apply on_calls_step.
Qed.

Lemma unmount_while_init_pending_witness :
  let s := run_events (initial Client) [Mount (mkProps 1 None None)] in
  let s1 := step s Unmount in
  let s2 := step s1 (InitResolve 0 4) in
  let s3 := run_events s2 [StateChange 4 (mkWidgetState true true true true 2 0)] in
  listeners (sdk_obj (widget s2) 4) = [0] ∧
  0 ∈ listeners (sdk_obj (widget s3) 4) ∧
  cells s3 = cells s1 ∧
  useContext s3 = None.
Proof.
  cbn zeta.
  destruct (unmount_while_init_pending
    (run_events (initial Client) [Mount (mkProps 1 None None)])
    0 (mkRun 0 1 None None) 4) as (_ & _ & _ & H1 & H2 & _).
  - by exists Client, [Mount (mkProps 1 None None)].
  - reflexivity.
  - reflexivity.
  - destruct (H2 [StateChange 4 (mkWidgetState true true true true 2 0)])
      as (H3 & _ & H4 & H5).
    split_and!.
    + rewrite H1. reflexivity.
    + exact H3.
    + exact H4.
    + exact H5.
Defined.

(** C6, the failing input: mount, unmount while [YourGPT.init] is pending,
    then the call resolves; a [stateChange] listener is registered on the
    handle of an unmounted provider and nothing unsubscribes it. *)
Lemma listener_attached_after_unmount :
  let s := run_events (initial Client)
             [Mount (mkProps 1 None None); Unmount; InitResolve 0 4] in
  phase s = Unmounted ∧
  on_calls (widget s) = [(4, 0)] ∧
  listeners (sdk_obj (widget s) 4) = [0] ∧
  listeners (sdk_obj (widget s) 4) ≠ [] ∧
  unsubscribe_calls (widget s) = [].
Proof.
  cbn zeta. split_and!; try reflexivity.
  by change ([0] ≠ []).
Qed.

(** ** Re-initialization *)

(** C7.  When a mounted provider in a browser is rendered with another
    [config] reference, the second effect runs again.  The cleanup
    returned by its previous run is executed: when the [sdk] it captured
    is a handle with a stored unsubscribe function, that function is
    called once and its listener leaves the handle; otherwise nothing is
    called.  Then [initializeSDK] starts, which sets [isLoading], clears
    [error] and calls [YourGPT.init] with the new configuration; the new
    run is pending and a new cleanup is stored, which captured the handle
    exposed now: it is the one a further change of [config] executes. *)
Theorem config_change_reinitializes s p :
  reachable s → env s = Client → phase s = Mounted →
  config p ≠ config (props s) →
  let s' := step s (Rerender p) in
  is_Some (effect_cleanup s) ∧
  widget s' = log (CallInit (config p)) (widget (run_cleanup s)) ∧
  unsubscribe_calls (widget s') =
    unsubscribe_calls (widget s) ++
    match effect_cleanup s with
    | Some (Some inst) =>
        match _unsubscribeStateChange (sdk_obj (widget s) inst) with
        | Some l => [(inst, l)]
        | None => []
        end
    | _ => []
    end ∧
  (∀ inst l,
     effect_cleanup s = Some (Some inst) →
     _unsubscribeStateChange (sdk_obj (widget s) inst) = Some l →
     listeners (sdk_obj (widget s') inst) =
       filter (λ x, x ≠ l) (listeners (sdk_obj (widget s) inst))) ∧
  init_calls (widget s') = init_calls (widget s) ++ [config p] ∧
  pending s' =
    pending s ++ [mkRun (next_run s) (config p) (onError p) (onInitialized p)] ∧
  exposed s' =
    mkContext (sdk (exposed s)) (isInitialized (exposed s)) true None
      (state (exposed s)) ∧
  effect_cleanup s' = Some (sdk (exposed s)) ∧
  (∀ p2, config p2 ≠ config p →
     unsubscribe_calls (widget (step s' (Rerender p2))) =
       unsubscribe_calls (widget s') ++
       match sdk (exposed s) with
       | Some inst =>
           match _unsubscribeStateChange (sdk_obj (widget s') inst) with
           | Some l => [(inst, l)]
           | None => []
           end
       | None => []
       end).
Proof.
  intros Hs%reachable_settled He Hp Hne. cbn zeta.
  assert (p ≠ props s) as Hne' by congruence.
  destruct (observe_rerender s p Hs He Hp Hne')
    as (Hs' & He' & Hp' & Hpr' & Hc' & _).
  split_and!.
  - pose proof Hs as (_ & _ & _ & _ & Hph). rewrite Hp in Hph.
    by destruct (Hph He) as (_ & _ & _ & Hu).
  - by rewrite step_rerender_changed.
  - by apply unsubscribe_calls_rerender.
  - intros inst l Hc Hu. by apply listeners_rerender.
  - rewrite step_rerender_changed by done. cbn [widget].
    by rewrite init_calls_log, init_calls_run_cleanup.
  - by rewrite step_rerender_changed.
  - rewrite step_rerender_changed by done. unfold exposed. cbn.
    by destruct Hs as (<- & _).
  - done.
  - intros p2 Hne2.
    rewrite unsubscribe_calls_rerender; [|done..|congruence].
    rewrite Hc'. by destruct (sdk (exposed s)).
Qed.

Lemma config_change_reinitializes_witness :
  let s := run_events (initial Client)
             [Mount (mkProps 1 None None); InitResolve 0 4] in
  let s' := step s (Rerender (mkProps 2 None None)) in
  let s'' := step s' (Rerender (mkProps 3 None None)) in
  init_calls (widget s') = [1; 2] ∧
  exposed s' = mkContext (Some 4) true true None widget_idle_state ∧
  effect_cleanup s' = Some (Some 4) ∧
  unsubscribe_calls (widget s') = [] ∧
  unsubscribe_calls (widget s'') = [(4, 0)].
Proof.
  cbn zeta.
  destruct (config_change_reinitializes
    (run_events (initial Client) [Mount (mkProps 1 None None); InitResolve 0 4])
    (mkProps 2 None None)) as (_ & _ & H0 & _ & H1 & _ & H2 & H3 & H4).
  - by exists Client, [Mount (mkProps 1 None None); InitResolve 0 4].
  - reflexivity.
  - reflexivity.
  - by change (2 ≠ 1).
  - split_and!.
    + rewrite H1. reflexivity.
    + rewrite H2. reflexivity.
    + rewrite H3. reflexivity.
    + rewrite H0. reflexivity.
    + rewrite (H4 (mkProps 3 None None)); [reflexivity|by change (3 ≠ 2)].
Defined.

(** ** The action registry *)

(** C8. Registering a handler under a name and unregistering that name
    leaves the empty registry empty; more generally it gives back any
    registry that did not hold the name, and unregistering twice is
    unregistering once. *)
Theorem register_unregister_round_trip
    (Handler : Type) (name : string) (handler : Handler) :
  unregisterAction name (registerAction name handler ∅) = ∅ ∧
  (∀ registry : gmap string Handler,
     registry !! name = None →
     unregisterAction name (registerAction name handler registry) = registry) ∧
  (∀ registry : gmap string Handler,
     unregisterAction name (unregisterAction name registry) =
     unregisterAction name registry).
Proof.
  unfold registerAction, unregisterAction. split_and!.
  - by rewrite delete_insert_eq, delete_empty.
  - intros registry Hfree. rewrite delete_insert_eq. by apply delete_id.
  - intros registry. apply delete_id, lookup_delete_eq.
Qed.

Lemma register_unregister_round_trip_witness :
  unregisterAction "create_todo" (registerAction "create_todo" 7 ∅) = ∅ ∧
  unregisterAction "create_todo"
    (registerAction "create_todo" 7 {["delete_todo" := 3]}) =
  {["delete_todo" := 3]}.
Proof.
  destruct (register_unregister_round_trip nat "create_todo" 7) as (H0 & H1 & _).
  split; [exact H0|]. apply H1. reflexivity.
Defined.

(** ** The hook *)

(** C9. Outside a mounted provider [useContext] yields [null] and
    [useYourGPT] throws a [YourGPTError] carrying the fixed message; below a
    provider it returns the context value of the last render, unchanged. *)
Theorem useYourGPT_requires_provider :
  useYourGPT None =
    Throw (mkYourGPTError "useYourGPT must be used within a YourGPTProvider") ∧
  (∀ c, useYourGPT (Some c) = Return c) ∧
  (∀ s, useYourGPT (useContext s) =
        match phase s with
        | Mounted => Return (exposed s)
        | _ => Throw (mkYourGPTError
                        "useYourGPT must be used within a YourGPTProvider")
        end).
Proof.
  split_and!; [done..|]. intros s. unfold useContext. by destruct (phase s).
Qed.

(** ** The exposed state *)

(** C10. Until a call of [YourGPT.init] has resolved, and for ever on a
    server, the exposed state is the literal passed to [useState]: closed,
    visible, not connected, not loaded, no message, no retry.  When a call
    resolves on a mounted provider, the exposed state becomes the snapshot
    [getState()] reports at that moment, before any [stateChange] event. *)
Theorem exposed_state_default_then_snapshot :
  initial_state = mkWidgetState false true false false 0 0 ∧
  (∀ e evs,
     e = Server ∨ Forall (λ ev, is_resolve ev = false) evs →
     state (exposed (run_events (initial e) evs)) = initial_state) ∧
  (∀ s id r inst,
     reachable s → phase s = Mounted → find_run id s = Some r →
     state (exposed (step s (InitResolve id inst))) =
       snapshot (sdk_obj (widget s) inst)).
Proof.
  split_and!; [done| |].
  - intros e evs Hevs.
    pose proof (settled_run_events (initial e) evs (settled_initial e)) as Hs.
    pose proof Hs as (Hc & _ & Hsrv & Hon & _).
    unfold exposed. rewrite <- Hc. destruct Hevs as [->|Hevs].
    + rewrite env_run_events in Hsrv by apply settled_initial.
      by destruct (Hsrv eq_refl) as (-> & _).
    + apply Hon. clear Hs Hc Hsrv Hon.
      induction evs as [|ev evs IH] using rev_ind; [done|].
      apply Forall_app in Hevs as [Hevs Hev]. inversion_clear Hev as [|?? Hev' _].
      rewrite run_events_snoc, on_calls_step; [by apply IH| |done].
      apply settled_run_events, settled_initial.
  - intros s id r inst Hs%reachable_settled Hp Hr.
    by rewrite (exposed_step_resolve s id r inst).
Qed.

Lemma exposed_state_default_then_snapshot_witness :
  state (exposed (run_events (initial Server)
    [Mount (mkProps 1 None None);
     StateChange 4 (mkWidgetState true true true true 2 0);
     InitResolve 0 4])) = initial_state ∧
  state (exposed (run_events (initial Client)
    [Mount (mkProps 1 None None);
     StateChange 4 (mkWidgetState true true true true 2 0);
     InitReject 0 JsNull])) = initial_state ∧
  state (exposed (step (run_events (initial Client)
    [Mount (mkProps 1 None None);
     StateChange 4 (mkWidgetState true true true true 2 0)])
    (InitResolve 0 4))) = mkWidgetState true true true true 2 0.
Proof.
  destruct exposed_state_default_then_snapshot as (_ & H1 & H2).
  split_and!.
  - apply H1. by left.
  - apply H1. right. repeat constructor.
  - rewrite (H2 _ 0 (mkRun 0 1 None None) 4); [reflexivity| |reflexivity|reflexivity].
    by eexists Client, _.
Defined.

(** * Further properties of the provider *)

(** X1. In every reachable state the exposed context has a handle exactly
    when it says it is initialized: [setSdk] and [setIsInitialized(true)]
    are only called together, and neither cell is ever reset. *)
Theorem initialized_iff_handle s :
  reachable s →
  isInitialized (exposed s) = true ↔ is_Some (sdk (exposed s)).
Proof.
  intros (e & evs & ->). induction evs as [|ev evs IH] using rev_ind.
  - cbn. split; [done|]. by intros [? [=]].
  - rewrite run_events_snoc.
    pose proof (settled_run_events (initial e) evs (settled_initial e)) as Hs.
    rewrite exposed_step by done.
    set (s := run_events (initial e) evs) in *.
    destruct ev as [p|p|id inst|id err|inst ws|]; repeat case_match; cbn; try done.
    all: split; [eauto|done].
Qed.

Lemma initialized_iff_handle_witness :
  isInitialized (exposed (run_events (initial Client)
     [Mount (mkProps 1 None None); InitResolve 0 4])) = true ↔
  is_Some (sdk (exposed (run_events (initial Client)
     [Mount (mkProps 1 None None); InitResolve 0 4]))).
Proof.
  apply initialized_iff_handle.
  by exists Client, [Mount (mkProps 1 None None); InitResolve 0 4].
Defined.

(** X2. The callbacks are dependencies too: on a mounted provider in a
    browser, a render that passes the same [config] but another [onError]
    or [onInitialized] reference runs the effect again and calls
    [YourGPT.init] once more with that same configuration, with
    [isLoading] set and [error] cleared. *)
Theorem callback_change_reinitializes s p :
  reachable s → env s = Client → phase s = Mounted →
  config p = config (props s) →
  onError p ≠ onError (props s) ∨ onInitialized p ≠ onInitialized (props s) →
  let s' := step s (Rerender p) in
  init_calls (widget s') = init_calls (widget s) ++ [config (props s)] ∧
  pending s' =
    pending s ++ [mkRun (next_run s) (config p) (onError p) (onInitialized p)] ∧
  exposed s' =
    mkContext (sdk (exposed s)) (isInitialized (exposed s)) true None
      (state (exposed s)).
Proof.
  intros Hs%reachable_settled He Hp Hcfg Hne. cbn zeta.
  assert (p ≠ props s) as Hne'.
  { intros Heq. rewrite Heq in Hne. by destruct Hne. }
  rewrite exposed_step by done. rewrite decide_True by done.
  rewrite step_rerender_changed by done. cbn.
  by rewrite init_calls_log, init_calls_run_cleanup, Hcfg.
Qed.

Lemma callback_change_reinitializes_witness :
  let s := run_events (initial Client)
             [Mount (mkProps 1 None None); InitResolve 0 4] in
  let s' := step s (Rerender (mkProps 1 (Some (mkCallback 5 None)) None)) in
  init_calls (widget s') = [1; 1] ∧
  exposed s' = mkContext (Some 4) true true None widget_idle_state.
Proof.
  cbn zeta.
  destruct (callback_change_reinitializes
    (run_events (initial Client) [Mount (mkProps 1 None None); InitResolve 0 4])
    (mkProps 1 (Some (mkCallback 5 None)) None)) as (H1 & _ & H2).
  - by exists Client, [Mount (mkProps 1 None None); InitResolve 0 4].
  - reflexivity.
  - reflexivity.
  - reflexivity.
  - left. by change (Some (mkCallback 5 None) ≠ None).
  - split.
    + rewrite H1. reflexivity.
    + rewrite H2. reflexivity.
Defined.

(** X3. A render with the same three references is idle: no effect runs,
    no call is made, and the provider is left exactly as it was. *)
Theorem same_props_render_is_idle s :
  reachable s → step s (Rerender (props s)) = s.
Proof. intros Hs%reachable_settled. by apply step_rerender_same. Qed.

Lemma same_props_render_is_idle_witness :
  let s := run_events (initial Client)
             [Mount (mkProps 1 None None); InitResolve 0 4] in
  step s (Rerender (props s)) = s.
Proof.
  cbn zeta. apply same_props_render_is_idle.
  by exists Client, [Mount (mkProps 1 None None); InitResolve 0 4].
Defined.

(** X4. Only the [finally] block clears [isLoading]: while no pending call
    of [YourGPT.init] resolves or throws, a provider that shows
    [isLoading = true] keeps showing it, whatever else happens. *)
Theorem loading_until_init_settles s evs :
  reachable s → isLoading (exposed s) = true →
  Forall (λ ev, is_settlement ev = false) evs →
  isLoading (exposed (run_events s evs)) = true.
Proof.
  intros Hs%reachable_settled Hl Hevs.
  induction evs as [|ev evs IH] using rev_ind; [done|].
  apply Forall_app in Hevs as [Hevs Hev]. inversion_clear Hev as [|?? Hev' _].
  rewrite run_events_snoc.
  rewrite exposed_step by by apply settled_run_events.
  specialize (IH Hevs).
  destruct ev as [p|p|id inst|id err|inst ws|]; try done; by repeat case_match.
Qed.

Lemma loading_until_init_settles_witness :
  let s := run_events (initial Client) [Mount (mkProps 1 None None)] in
  isLoading (exposed (run_events s
    [StateChange 4 (mkWidgetState true true true true 2 0);
     Rerender (mkProps 1 None None); Unmount])) = true.
Proof.
  cbn zeta. apply loading_until_init_settles.
  - by exists Client, [Mount (mkProps 1 None None)].
  - reflexivity.
  - repeat constructor.
Defined.

(** X5. An exception of [onInitialized] is caught by the same [catch]
    block as a failure of [YourGPT.init]: the handle is exposed and
    [isInitialized] is [true], yet [error] holds the normalized exception
    and [onError], when the run has one, is called with it. *)
Theorem throwing_onInitialized_is_reported s id r inst cb v :
  reachable s → phase s = Mounted → find_run id s = Some r →
  run_onInitialized r = Some cb → cb_throws cb = Some v →
  let s' := step s (InitResolve id inst) in
  exposed s' =
    mkContext (Some inst) true false (Some (sdkError_of v))
      (snapshot (sdk_obj (widget s) inst)) ∧
  onError_calls (widget s') =
    onError_calls (widget s) ++
    match run_onError r with
    | Some cb' => [(cb', sdkError_of v)]
    | None => []
    end.
Proof.
  intros Hs%reachable_settled Hp Hr Hcb Hv. cbn zeta. split.
  - rewrite (exposed_step_resolve s id r inst) by done. rewrite Hcb.
    destruct cb as [ref t]; cbn in Hv. by rewrite Hv.
  - unfold onError_calls. rewrite (calls_step_resolve s id r inst) by done.
    rewrite !omap_app. cbn. unfold resolved_calls, catch_calls.
    rewrite Hcb, Hv. cbn.
    destruct (run_onError r) as [[ref' [v'|]]|]; done.
Qed.

Lemma throwing_onInitialized_is_reported_witness :
  let s := run_events (initial Client)
    [Mount (mkProps 1 (Some (mkCallback 9 None))
                      (Some (mkCallback 8 (Some (JsError "TypeError" "x is undefined")))))] in
  let s' := step s (InitResolve 0 4) in
  exposed s' =
    mkContext (Some 4) true false
      (Some (mkYourGPTError "TypeError: x is undefined")) widget_idle_state ∧
  onError_calls (widget s') =
    [(mkCallback 9 None, mkYourGPTError "TypeError: x is undefined")].
Proof.
  cbn zeta.
  destruct (throwing_onInitialized_is_reported
    (run_events (initial Client)
      [Mount (mkProps 1 (Some (mkCallback 9 None))
                        (Some (mkCallback 8 (Some (JsError "TypeError" "x is undefined")))))])
    0 (mkRun 0 1 (Some (mkCallback 9 None))
         (Some (mkCallback 8 (Some (JsError "TypeError" "x is undefined")))))
    4 (mkCallback 8 (Some (JsError "TypeError" "x is undefined")))
    (JsError "TypeError" "x is undefined")) as (H1 & H2).
  - by eexists Client, [_].
  - reflexivity.
  - reflexivity.
  - reflexivity.
  - reflexivity.
  - split.
    + rewrite H1. reflexivity.
    + rewrite H2. reflexivity.
Defined.

(** X6. When a pending call resolves and [onInitialized] returns (or is
    absent), the continuation makes exactly these calls, in this order:
    [on("stateChange", ...)] on the handle, [getState()], then
    [onInitialized] once with the handle.  It calls neither [onError] nor
    [YourGPT.init], and it does so whether or not the provider is still
    mounted. *)
Theorem resolution_calls_in_order s id r inst :
  reachable s → find_run id s = Some r →
  (∀ cb, run_onInitialized r = Some cb → cb_throws cb = None) →
  calls (widget (step s (InitResolve id inst))) =
    calls (widget s) ++
    [CallOn inst (next_listener (widget s)); CallGetState inst] ++
    match run_onInitialized r with
    | Some cb => [CallOnInitialized cb inst]
    | None => []
    end.
Proof.
  intros Hs%reachable_settled Hr Hcb.
  rewrite (calls_step_resolve s id r inst) by done. unfold resolved_calls.
  destruct (run_onInitialized r) as [cb|]; [|done].
  by rewrite (Hcb cb eq_refl).
Qed.

Lemma resolution_calls_in_order_witness :
  let s := run_events (initial Client)
    [Mount (mkProps 1 None (Some (mkCallback 8 None))); Unmount] in
  calls (widget (step s (InitResolve 0 4))) =
    [CallInit 1; CallOn 4 0; CallGetState 4; CallOnInitialized (mkCallback 8 None) 4].
Proof.
  cbn zeta.
  rewrite (resolution_calls_in_order
    (run_events (initial Client)
       [Mount (mkProps 1 None (Some (mkCallback 8 None))); Unmount])
    0 (mkRun 0 1 None (Some (mkCallback 8 None))) 4).
  - reflexivity.
  - by eexists Client, [_; _].
  - reflexivity.
  - intros cb [= <-]. reflexivity.
Defined.

(** X7. The teardown does release the subscription when the effect has run
    again after the handle was stored: mount, successful initialization, a
    render with other props, unmount.  The cleanup of that later run
    captured the handle; at unmount it calls the stored unsubscribe
    function exactly once and the listener is gone, while the call started
    by the second run is still pending. *)
Theorem unmount_after_reinit_unsubscribes p p' inst :
  p' ≠ p →
  let s := run_events (initial Client)
             [Mount p; InitResolve 0 inst; Rerender p'; Unmount] in
  unsubscribe_calls (widget s) = [(inst, 0)] ∧
  listeners (sdk_obj (widget s) inst) = [] ∧
  pending s = [mkRun 1 (config p') (onError p') (onInitialized p')].
Proof.
  intros Hne. cbn zeta. rewrite !run_events_cons, run_events_nil.
  destruct (observe_mount p)
    as (Hs1 & He1 & Hp1 & Hpr1 & Hc1 & Hpd1 & Hn1 & Hx1 & Ho1 & Hnl1 & _ & _ & Hu1).
  set (s1 := step (initial Client) (Mount p)) in *. clearbody s1.
  destruct (observe_resolve s1 0 (mkRun 0 (config p) (onError p) (onInitialized p)) inst)
    as (Hs2 & He2 & Hp2 & Hpr2 & Hc2 & Hpd2 & Hn2 & Hx2 & _ & _ & Ho2 & Hnl2 & _ & _ & Hu2);
    [done|done|by unfold find_run; rewrite Hpd1|].
  set (s2 := step s1 (InitResolve 0 inst)) in *. clearbody s2.
  destruct (observe_rerender s2 p') as (Hs3 & He3 & Hp3 & Hpr3 & Hc3 & Hpd3 & Hn3 & Hx3 & Hw3);
    [done|congruence|done|congruence|].
  set (s3 := step s2 (Rerender p')) in *. clearbody s3.
  rewrite run_cleanup_idle in Hw3 by congruence.
  rewrite Hx2 in Hc3.
  assert (sdk_obj (widget s3) inst = mkSdkObject [0] (snapshot fresh_sdk) (Some 0)) as Ho3.
  { rewrite Hw3, sdk_obj_log, Ho2, decide_True by done. by rewrite Ho1, Hnl1. }
  destruct (observe_unmount s3 inst 0) as (_ & _ & Hpd4 & Hu4 & Ho4);
    [done|done|done|done|by rewrite Ho3|].
  rewrite Hu4, Ho4, decide_True, Hpd4, Hpd3, Hpd2, Hpd1, Hn2, Hn1, Ho3 by done.
  rewrite Hw3, unsubscribe_calls_log, Hu2, Hu1. done.
Qed.

Lemma unmount_after_reinit_unsubscribes_witness :
  let s := run_events (initial Client)
             [Mount (mkProps 1 None None); InitResolve 0 4;
              Rerender (mkProps 2 None None); Unmount] in
  unsubscribe_calls (widget s) = [(4, 0)] ∧
  listeners (sdk_obj (widget s) 4) = [] ∧
  pending s = [mkRun 1 2 None None].
Proof.
  apply (unmount_after_reinit_unsubscribes (mkProps 1 None None) (mkProps 2 None None) 4).
  by change (mkProps 2 None None ≠ mkProps 1 None None).
Defined.

(** X8. Listeners pile up on a shared handle.  When the props change after
    a successful initialization and the second call resolves with the same
    handle, a second listener is attached and its unsubscribe function
    overwrites the first one on the handle.  The teardown then removes the
    second listener only: the first stays attached for ever. *)
Theorem reinit_same_handle_leaks_listener p p' inst evs :
  p' ≠ p →
  let s4 := run_events (initial Client)
              [Mount p; InitResolve 0 inst; Rerender p'; InitResolve 1 inst] in
  let s5 := step s4 Unmount in
  let s6 := run_events s5 evs in
  listeners (sdk_obj (widget s4) inst) = [0; 1] ∧
  _unsubscribeStateChange (sdk_obj (widget s4) inst) = Some 1 ∧
  unsubscribe_calls (widget s5) = [(inst, 1)] ∧
  listeners (sdk_obj (widget s5) inst) = [0] ∧
  unsubscribe_calls (widget s6) = [(inst, 1)] ∧
  0 ∈ listeners (sdk_obj (widget s6) inst).
Proof.
  intros Hne. cbn zeta. rewrite !run_events_cons, run_events_nil.
  destruct (observe_mount p)
    as (Hs1 & He1 & Hp1 & Hpr1 & Hc1 & Hpd1 & Hn1 & Hx1 & Ho1 & Hnl1 & _ & _ & Hu1).
  set (s1 := step (initial Client) (Mount p)) in *. clearbody s1.
  destruct (observe_resolve s1 0 (mkRun 0 (config p) (onError p) (onInitialized p)) inst)
    as (Hs2 & He2 & Hp2 & Hpr2 & Hc2 & Hpd2 & Hn2 & Hx2 & _ & _ & Ho2 & Hnl2 & _ & _ & Hu2);
    [done|done|by unfold find_run; rewrite Hpd1|].
  set (s2 := step s1 (InitResolve 0 inst)) in *. clearbody s2.
  destruct (observe_rerender s2 p') as (Hs3 & He3 & Hp3 & Hpr3 & Hc3 & Hpd3 & Hn3 & Hx3 & Hw3);
    [done|congruence|done|congruence|].
  set (s3 := step s2 (Rerender p')) in *. clearbody s3.
  rewrite run_cleanup_idle in Hw3 by congruence.
  rewrite Hx2 in Hc3.
  assert (sdk_obj (widget s3) inst = mkSdkObject [0] (snapshot fresh_sdk) (Some 0)) as Ho3.
  { rewrite Hw3, sdk_obj_log, Ho2, decide_True by done. by rewrite Ho1, Hnl1. }
  assert (next_listener (widget s3) = 1) as Hnl3.
  { by rewrite Hw3, next_listener_log, Hnl2, Hnl1. }
  assert (unsubscribe_calls (widget s3) = []) as Hu3.
  { by rewrite Hw3, unsubscribe_calls_log, Hu2, Hu1. }
  destruct (observe_resolve s3 1 (mkRun 1 (config p') (onError p') (onInitialized p')) inst)
    as (Hs4 & He4 & Hp4 & Hpr4 & Hc4 & Hpd4 & Hn4 & Hx4 & _ & _ & Ho4 & Hnl4 & _ & _ & Hu4);
    [done|done| |].
  { unfold find_run. by rewrite Hpd3, Hpd2, Hpd1, Hn2, Hn1. }
  set (s4 := step s3 (InitResolve 1 inst)) in *. clearbody s4.
  assert (sdk_obj (widget s4) inst = mkSdkObject [0; 1] (snapshot fresh_sdk) (Some 1)) as Ho4'.
  { rewrite Ho4, decide_True by done. by rewrite Ho3, Hnl3. }
  destruct (observe_unmount s4 inst 1) as (Hs5 & Hp5 & Hpd5 & Hu5 & Ho5);
    [done|congruence|done|congruence|by rewrite Ho4'|].
  set (s5 := step s4 Unmount) in *. clearbody s5.
  assert (listeners (sdk_obj (widget s5) inst) = [0]) as Hl5.
  { rewrite Ho5, decide_True by done. by rewrite Ho4'. }
  destruct (run_events_unmounted s5 evs Hs5 Hp5) as (_ & _ & Hu6 & Hl6).
  rewrite Hu6, Hu5, Hu4, Hu3, Ho4', Hl5. split_and!; try done.
  apply Hl6. rewrite Hl5. set_solver.
Qed.

Lemma reinit_same_handle_leaks_listener_witness :
  let s4 := run_events (initial Client)
              [Mount (mkProps 1 None None); InitResolve 0 4;
               Rerender (mkProps 2 None None); InitResolve 1 4] in
  let s5 := step s4 Unmount in
  let s6 := run_events s5 [StateChange 4 (mkWidgetState true true true true 2 0)] in
  listeners (sdk_obj (widget s4) 4) = [0; 1] ∧
  _unsubscribeStateChange (sdk_obj (widget s4) 4) = Some 1 ∧
  unsubscribe_calls (widget s5) = [(4, 1)] ∧
  listeners (sdk_obj (widget s5) 4) = [0] ∧
  unsubscribe_calls (widget s6) = [(4, 1)] ∧
  0 ∈ listeners (sdk_obj (widget s6) 4).
Proof.
  apply (reinit_same_handle_leaks_listener (mkProps 1 None None) (mkProps 2 None None) 4).
  by change (mkProps 2 None None ≠ mkProps 1 None None).
Defined.

(** X9. The last resolution wins, whatever run it belongs to.  When the
    props change while the first call is pending, both calls are in
    flight; if the second resolves first and the first afterwards, the
    provider ends up exposing the handle obtained for the old
    configuration, listeners are attached to both handles, and nothing is
    loading. *)
Theorem stale_resolution_overwrites_handle p1 p2 i1 i2 :
  p2 ≠ p1 →
  let s3 := run_events (initial Client)
              [Mount p1; Rerender p2; InitResolve 1 i2] in
  let s4 := step s3 (InitResolve 0 i1) in
  sdk (exposed s3) = Some i2 ∧
  find_run 0 s3 = Some (mkRun 0 (config p1) (onError p1) (onInitialized p1)) ∧
  props s4 = p2 ∧
  sdk (exposed s4) = Some i1 ∧
  isLoading (exposed s4) = false ∧
  pending s4 = [] ∧
  init_calls (widget s4) = [config p1; config p2] ∧
  on_calls (widget s4) = [(i2, 0); (i1, 1)].
Proof.
  intros Hne. cbn zeta. rewrite !run_events_cons, run_events_nil.
  destruct (observe_mount p1)
    as (Hs1 & He1 & Hp1 & Hpr1 & Hc1 & Hpd1 & Hn1 & Hx1 & Ho1 & Hnl1 & Hon1 & Hi1 & Hu1).
  set (s1 := step (initial Client) (Mount p1)) in *. clearbody s1.
  destruct (observe_rerender s1 p2) as (Hs2 & He2 & Hp2 & Hpr2 & Hc2 & Hpd2 & Hn2 & Hx2 & Hw2);
    [done|done|done|congruence|].
  set (s2 := step s1 (Rerender p2)) in *. clearbody s2.
  rewrite run_cleanup_idle in Hw2 by done.
  assert (next_listener (widget s2) = 0) as Hnl2
    by by rewrite Hw2, next_listener_log.
  assert (on_calls (widget s2) = []) as Hon2.
  { rewrite Hw2, on_calls_log, Hon1. done. }
  assert (init_calls (widget s2) = [config p1; config p2]) as Hi2.
  { rewrite Hw2, init_calls_log, Hi1. done. }
  destruct (observe_resolve s2 1 (mkRun 1 (config p2) (onError p2) (onInitialized p2)) i2)
    as (Hs3 & He3 & Hp3 & Hpr3 & Hc3 & Hpd3 & Hn3 & Hx3 & _ & _ & Ho3 & Hnl3 & Hon3 & Hi3 & Hu3);
    [done|done| |].
  { unfold find_run. by rewrite Hpd2, Hpd1, Hn1. }
  set (s3 := step s2 (InitResolve 1 i2)) in *. clearbody s3.
  assert (pending s3 = [mkRun 0 (config p1) (onError p1) (onInitialized p1)]) as Hpd3'.
  { by rewrite Hpd3, Hpd2, Hpd1, Hn1. }
  destruct (observe_resolve s3 0 (mkRun 0 (config p1) (onError p1) (onInitialized p1)) i1)
    as (Hs4 & He4 & Hp4 & Hpr4 & Hc4 & Hpd4 & Hn4 & Hx4 & _ & Hl4 & Ho4 & Hnl4 & Hon4 & Hi4 & Hu4);
    [done|done| |].
  { unfold find_run. by rewrite Hpd3'. }
  unfold find_run. rewrite Hpd3'.
  rewrite Hpr4, Hpr3, Hpr2, Hpd4, Hpd3', Hi4, Hi3, Hi2, Hon4, Hon3, Hon2, Hnl3, Hnl2.
  by split_and!.
Qed.

Lemma stale_resolution_overwrites_handle_witness :
  let s3 := run_events (initial Client)
              [Mount (mkProps 1 None None); Rerender (mkProps 2 None None);
               InitResolve 1 7] in
  let s4 := step s3 (InitResolve 0 4) in
  sdk (exposed s3) = Some 7 ∧
  find_run 0 s3 = Some (mkRun 0 1 None None) ∧
  props s4 = mkProps 2 None None ∧
  sdk (exposed s4) = Some 4 ∧
  isLoading (exposed s4) = false ∧
  pending s4 = [] ∧
  init_calls (widget s4) = [1; 2] ∧
  on_calls (widget s4) = [(7, 0); (4, 1)].
Proof.
  apply (stale_resolution_overwrites_handle (mkProps 1 None None) (mkProps 2 None None) 4 7).
  by change (mkProps 2 None None ≠ mkProps 1 None None).
Defined.

(** X10. A server render is inert: whatever events follow, the provider
    keeps the initial context (no handle, not initialized, not loading, no
    error, the default state), starts no run, attaches no listener and
    makes no call at all across its boundary. *)
Theorem server_render_is_inert evs :
  let s := run_events (initial Server) evs in
  exposed s = mkContext None false false None initial_state ∧
  pending s = [] ∧
  calls (widget s) = [] ∧
  (∀ inst, listeners (sdk_obj (widget s) inst) = []).
Proof.
  cbn zeta.
  pose proof (settled_run_events (initial Server) evs (settled_initial Server))
    as (Hc & _ & Hsrv & Hon & _).
  rewrite env_run_events in Hsrv by apply settled_initial.
  destruct (Hsrv eq_refl) as (Hi & Hpd & Hcalls).
  unfold exposed. rewrite <- Hc, Hi. split_and!; try done.
  apply Hon. unfold on_calls. by rewrite Hcalls.
Qed.

(** X11. [YourGPT.init] is called by the effect and by nothing else: a
    resolution, a failure, a state change, an unmount, or a render with
    the same props never calls it.  In particular a failed call is not
    retried. *)
Theorem init_called_only_by_effect s ev :
  reachable s →
  match ev with
  | Mount _ => False
  | Rerender p => p = props s
  | _ => True
  end →
  init_calls (widget (step s ev)) = init_calls (widget s).
Proof.
  intros Hs%reachable_settled Hev.
  destruct ev as [p|p|id inst|id err|inst ws|]; [done|..].
  - subst p. by rewrite step_rerender_same.
  - destruct (find_run id s) as [r|] eqn:Hr; [|by unfold step; rewrite Hr].
    rewrite (step_resolve s id r inst) by done. rewrite widget_sync.
    by destruct (resolved_effect r inst (drop_run id s)) as (_ & _ & _ & -> & _).
  - destruct (find_run id s) as [r|] eqn:Hr; [|by unfold step; rewrite Hr].
    rewrite (step_reject s id r err) by done. rewrite widget_sync.
    by destruct (catch_effect r err (drop_run id s)) as (_ & _ & _ & -> & _).
  - by rewrite widget_step_state_change.
  - destruct (phase s) eqn:Hp; try (unfold step; rewrite Hp; done).
    rewrite step_unmount by done. cbn [widget].
    destruct (env s); [|done]. apply init_calls_run_cleanup.
Qed.

Lemma init_called_only_by_effect_witness :
  let s := run_events (initial Client) [Mount (mkProps 1 None None)] in
  init_calls (widget (step s (InitReject 0 JsNull))) = init_calls (widget s).
Proof.
  cbn zeta.
  apply (init_called_only_by_effect
    (run_events (initial Client) [Mount (mkProps 1 None None)]) (InitReject 0 JsNull)).
  - by exists Client, [Mount (mkProps 1 None None)].
  - exact I.
Defined.

(** X12. The provider only listens to handles it subscribed to: a
    [stateChange] event of a handle on which it never called [on] changes
    nothing of the exposed context. *)
Theorem foreign_handle_events_ignored s inst ws :
  reachable s →
  (∀ l, (inst, l) ∉ on_calls (widget s)) →
  exposed (step s (StateChange inst ws)) = exposed s.
Proof.
  intros Hr Hno. pose proof (reachable_settled s Hr) as Hs.
  rewrite exposed_state_change by done.
  destruct (listeners (sdk_obj (widget s) inst)) as [|l ls] eqn:Hl.
  - rewrite decide_True by auto. by destruct (exposed s).
  - exfalso. apply (Hno l), listeners_registered; [done|]. rewrite Hl. set_solver.
Qed.

Lemma foreign_handle_events_ignored_witness :
  let s := run_events (initial Client)
             [Mount (mkProps 1 None None); InitResolve 0 4] in
  exposed (step s (StateChange 5 (mkWidgetState true true true true 2 0))) =
  exposed s.
Proof.
  cbn zeta. apply foreign_handle_events_ignored.
  - by exists Client, [Mount (mkProps 1 None None); InitResolve 0 4].
  - intros l Hl. change (on_calls _) with [(4, 0)] in Hl.
    apply list_elem_of_singleton in Hl. discriminate Hl.
Defined.

(** X13. An exception of [onError] is not caught: it leaves
    [initializeSDK] as the rejection of a promise nobody awaits, after the
    [finally] block has run, so a mounted provider still ends the run with
    [isLoading = false] and the error of the failed call. *)
Theorem throwing_onError_is_unhandled s id r err cb v :
  reachable s → find_run id s = Some r →
  run_onError r = Some cb → cb_throws cb = Some v →
  let s' := step s (InitReject id err) in
  calls (widget s') =
    calls (widget s) ++
    [CallOnError cb (sdkError_of err); UnhandledRejection v] ∧
  (phase s = Mounted →
   isLoading (exposed s') = false ∧
   error (exposed s') = Some (sdkError_of err)).
Proof.
  intros Hs%reachable_settled Hr Hcb Hv. cbn zeta. split.
  - rewrite (calls_step_reject s id r err) by done.
    unfold catch_calls. by rewrite Hcb, Hv.
  - intros Hp. by rewrite (exposed_step_reject s id r err).
Qed.

Lemma throwing_onError_is_unhandled_witness :
  let s := run_events (initial Client)
    [Mount (mkProps 1 (Some (mkCallback 9 (Some (JsString "oops")))) None)] in
  calls (widget (step s (InitReject 0 JsNull))) =
    [CallInit 1;
     CallOnError (mkCallback 9 (Some (JsString "oops"))) (mkYourGPTError "null");
     UnhandledRejection (JsString "oops")].
Proof.
  cbn zeta.
  destruct (throwing_onError_is_unhandled
    (run_events (initial Client)
      [Mount (mkProps 1 (Some (mkCallback 9 (Some (JsString "oops")))) None)])
    0 (mkRun 0 1 (Some (mkCallback 9 (Some (JsString "oops")))) None)
    JsNull (mkCallback 9 (Some (JsString "oops"))) (JsString "oops")) as (H1 & _).
  - by eexists Client, [_].
  - reflexivity.
  - reflexivity.
  - reflexivity.
  - rewrite H1. reflexivity.
Defined.

(** * The guide's todo application *)

Import Todos.

(** ** The effect of [TodoApp] *)

Lemma TodoApp_effect_snoc {H} (acts : list (string * H)) name h reg :
  TodoApp_effect (acts ++ [(name, h)]) reg =
  registerAction name h (TodoApp_effect acts reg).
Proof. unfold TodoApp_effect. by rewrite foldl_app. Qed.

Lemma TodoApp_effect_lookup_other {H} (acts : list (string * H)) reg name :
  name ∉ acts.*1 → TodoApp_effect acts reg !! name = reg !! name.
Proof.
  induction acts as [|[n h] acts IH] using rev_ind; [done|].
  rewrite fmap_app, TodoApp_effect_snoc. cbn. intros Hn.
  unfold registerAction. rewrite lookup_insert_ne by set_solver.
  apply IH. intros Hin. apply Hn, elem_of_app. by left.
Qed.

Lemma TodoApp_effect_lookup {H} (acts : list (string * H)) reg name h :
  NoDup acts.*1 → (name, h) ∈ acts →
  TodoApp_effect acts reg !! name = Some h.
Proof.
  induction acts as [|[n h'] acts IH] using rev_ind; [by intros _ ?%elem_of_nil|].
  rewrite fmap_app, TodoApp_effect_snoc. cbn.
  intros [Hnd [Hdisj _]]%NoDup_app Hin. unfold registerAction.
  apply elem_of_app in Hin as [Hin|Hin%list_elem_of_singleton].
  - rewrite lookup_insert_ne; [by apply IH|].
    intros ->. apply (Hdisj name); [|set_solver].
    apply list_elem_of_fmap. by exists (name, h).
  - simplify_eq. by rewrite lookup_insert_eq.
Qed.

Lemma TodoApp_cleanup_snoc {H} (acts : list (string * H)) name h reg :
  TodoApp_cleanup (acts ++ [(name, h)]) reg =
  unregisterAction name (TodoApp_cleanup acts reg).
Proof. unfold TodoApp_cleanup. by rewrite fmap_app, foldl_app. Qed.

Lemma TodoApp_cleanup_lookup {H} (acts : list (string * H)) reg name :
  TodoApp_cleanup acts reg !! name =
  if decide (name ∈ acts.*1) then None else reg !! name.
Proof.
  induction acts as [|[n h] acts IH] using rev_ind.
  - cbn. rewrite decide_False; [done|]. by intros ?%elem_of_nil.
  - rewrite TodoApp_cleanup_snoc, fmap_app. unfold unregisterAction. cbn [fmap list_fmap fst].
    destruct (decide (name = n)) as [->|Hne].
    + rewrite lookup_delete_eq, decide_True; [done|set_solver].
    + rewrite lookup_delete_ne by done. rewrite IH.
      destruct (decide (name ∈ acts.*1)).
      * rewrite decide_True; [done|]. apply elem_of_app. by left.
      * rewrite decide_False; [done|].
        by intros [?|?%list_elem_of_singleton]%elem_of_app.
Qed.

(** X14. The effect of [TodoApp] binds every action name of [todoActions]
    to its handler and leaves the other names alone; its cleanup removes
    exactly the names of [todoActions], the handlers other code had
    registered under these names before the effect included, so that
    mounting and unmounting [TodoApp] gives back the registry only where
    it held none of these names.  ([registerAction] and
    [unregisterAction] are the table operations modelled from the spec.) *)
Theorem TodoApp_effect_and_cleanup
    (Handler : Type) (todoActions : list (string * Handler))
    (registry : gmap string Handler) :
  NoDup todoActions.*1 →
  let mounted := TodoApp_effect todoActions registry in
  let unmounted := TodoApp_cleanup todoActions mounted in
  (∀ name handler, (name, handler) ∈ todoActions →
     mounted !! name = Some handler) ∧
  (∀ name, name ∉ todoActions.*1 → mounted !! name = registry !! name) ∧
  (∀ name, unmounted !! name =
     if decide (name ∈ todoActions.*1) then None else registry !! name) ∧
  (unmounted = registry ↔ ∀ name, name ∈ todoActions.*1 → registry !! name = None).
Proof.
  intros Hnd mounted unmounted.
  assert (∀ name, unmounted !! name =
     if decide (name ∈ todoActions.*1) then None else registry !! name) as Hun.
  { intros name. unfold unmounted. rewrite TodoApp_cleanup_lookup.
    case_decide; [done|]. by apply TodoApp_effect_lookup_other. }
  split_and!.
  - intros name handler Hin. by apply TodoApp_effect_lookup.
  - intros name Hn. by apply TodoApp_effect_lookup_other.
  - done.
  - split.
    + intros Heq name Hin. rewrite <- Heq, Hun. by rewrite decide_True.
    + intros Hfree. apply map_eq. intros name. rewrite Hun.
      case_decide; [by rewrite Hfree|done].
Qed.

Lemma TodoApp_effect_and_cleanup_witness :
  let todoActions := [("createTodo", 1%nat); ("updateTodoStatus", 2%nat)] in
  let registry : gmap string nat := {["createTodo" := 7%nat]} in
  TodoApp_effect todoActions registry !! "createTodo" = Some 1%nat ∧
  TodoApp_cleanup todoActions (TodoApp_effect todoActions registry) !! "createTodo"
    = None.
Proof.
  cbn zeta.
  destruct (TodoApp_effect_and_cleanup nat
              [("createTodo", 1%nat); ("updateTodoStatus", 2%nat)]
              {["createTodo" := 7%nat]}) as (H1 & _ & H3 & _).
  - cbn. apply NoDup_cons. split; [|apply NoDup_singleton].
    intros Hin%list_elem_of_singleton. discriminate Hin.
  - split.
    + apply H1. apply list_elem_of_here.
    + rewrite H3. reflexivity.
Defined.

(** ** Sorting *)

Lemma priorityOrder_inj p q r :
  priorityOrder p = Some r → priorityOrder q = Some r → p = q.
Proof.
  unfold priorityOrder. repeat case_decide; naive_solver.
Qed.

Lemma SortCompare_keys a b ra da rb db :
  sort_key a = Some (ra, da) → sort_key b = Some (rb, db) →
  SortCompare compareTodos a b =
  (if decide (ra = rb) then db - da else rb - ra)%Z.
Proof.
  unfold sort_key, SortCompare, compareTodos.
  destruct (priorityOrder (priority a)) as [ra'|] eqn:Ha; [|done].
  destruct (createdAt a) as [da'|]; [|done].
  destruct (priorityOrder (priority b)) as [rb'|] eqn:Hb; [|done].
  destruct (createdAt b) as [db'|]; [|done].
  intros [= -> ->] [= -> ->].
  destruct (decide (priority a ≠ priority b)) as [Hne|Heq]; cbn.
  - rewrite decide_False; [done|].
    intros ->. by apply Hne, (priorityOrder_inj _ _ rb).
  - apply dec_stable in Heq. rewrite Heq in Ha.
    rewrite decide_True; [done|congruence].
Qed.

Lemma SortCompare_precedes a b :
  is_Some (sort_key a) → is_Some (sort_key b) →
  (SortCompare compareTodos a b ≤ 0)%Z ↔ precedes a b.
Proof.
  intros [[ra da] Ha] [[rb db] Hb]. unfold precedes.
  rewrite (SortCompare_keys a b ra da rb db), Ha, Hb by done.
  case_decide; lia.
Qed.

Lemma SortCompare_antisym a b :
  is_Some (sort_key a) → is_Some (sort_key b) →
  SortCompare compareTodos b a = (- SortCompare compareTodos a b)%Z.
Proof.
  intros [[ra da] Ha] [[rb db] Hb].
  rewrite (SortCompare_keys a b ra da rb db), (SortCompare_keys b a rb db ra da)
    by done.
  repeat case_decide; lia.
Qed.

Lemma SortCompare_trans a b c :
  is_Some (sort_key a) → is_Some (sort_key b) → is_Some (sort_key c) →
  (SortCompare compareTodos a b ≤ 0)%Z → (SortCompare compareTodos b c ≤ 0)%Z →
  (SortCompare compareTodos a c ≤ 0)%Z.
Proof.
  intros [[ra da] Ha] [[rb db] Hb] [[rc dc] Hc].
  rewrite (SortCompare_keys a b ra da rb db), (SortCompare_keys b c rb db rc dc),
    (SortCompare_keys a c ra da rc dc) by done.
  repeat case_decide; lia.
Qed.

Lemma SortCompare_zero a b :
  is_Some (sort_key a) → is_Some (sort_key b) →
  SortCompare compareTodos a b = 0%Z ↔
  priority a = priority b ∧ createdAt a = createdAt b.
Proof.
  intros [[ra da] Ha] [[rb db] Hb].
  rewrite (SortCompare_keys a b ra da rb db) by done.
  unfold sort_key in Ha, Hb.
  destruct (priorityOrder (priority a)) as [ra'|] eqn:Hpa; [|done].
  destruct (createdAt a) as [da'|]; [|done].
  destruct (priorityOrder (priority b)) as [rb'|] eqn:Hpb; [|done].
  destruct (createdAt b) as [db'|]; [|done].
  injection Ha as -> ->. injection Hb as -> ->.
  case_decide as Hr.
  - subst rb. split.
    + intros Hd. split; [by apply (priorityOrder_inj _ _ ra)|]. f_equal. lia.
    + intros [_ [= ->]]. lia.
  - split.
    + intros Hd. exfalso. unfold priorityOrder in Hpa, Hpb.
      repeat case_decide; simplify_eq; lia.
    + intros [Hp _]. rewrite Hp in Hpa. congruence.
Qed.

(** X15. On todos whose priority is one of [high], [medium], [low] and
    whose date is valid the comparator is consistent, as [sort] requires:
    swapping the arguments negates the result, the order it induces is
    transitive, and it returns [0] exactly for todos of the same priority
    and the same time. *)
Theorem compareTodos_consistent (a b c : Todo) :
  is_Some (sort_key a) → is_Some (sort_key b) → is_Some (sort_key c) →
  SortCompare compareTodos b a = (- SortCompare compareTodos a b)%Z ∧
  ((SortCompare compareTodos a b ≤ 0)%Z → (SortCompare compareTodos b c ≤ 0)%Z →
   (SortCompare compareTodos a c ≤ 0)%Z) ∧
  (SortCompare compareTodos a b = 0%Z ↔
   priority a = priority b ∧ createdAt a = createdAt b).
Proof.
  intros Ha Hb Hc. split_and!.
  - by apply SortCompare_antisym.
  - by apply SortCompare_trans.
  - by apply SortCompare_zero.
Qed.

Lemma compareTodos_consistent_witness :
  let a := mkTodo "1" "write" None None "todo" "high" (Some 10%Z) in
  let b := mkTodo "2" "read" None None "done" "low" (Some 20%Z) in
  SortCompare compareTodos b a = (- SortCompare compareTodos a b)%Z.
Proof.
  cbn zeta.
  apply (compareTodos_consistent
           (mkTodo "1" "write" None None "todo" "high" (Some 10%Z))
           (mkTodo "2" "read" None None "done" "low" (Some 20%Z))
           (mkTodo "2" "read" None None "done" "low" (Some 20%Z)));
    by eexists.
Defined.

(** X16. A todo whose date is invalid makes the comparator inconsistent:
    it compares equal to every todo of its priority, also to two that the
    comparator orders, so the order [sort] leaves them in is not
    determined by the comparator. *)
Theorem invalid_date_breaks_consistency (a b c : Todo) (da dc : Z) :
  priority a = priority b → priority b = priority c →
  createdAt a = Some da → createdAt b = None → createdAt c = Some dc →
  (da < dc)%Z →
  SortCompare compareTodos a b = 0%Z ∧
  SortCompare compareTodos b c = 0%Z ∧
  (0 < SortCompare compareTodos a c)%Z.
Proof.
  intros Hab Hbc Ha Hb Hc Hlt. unfold SortCompare, compareTodos.
  rewrite !decide_False by (intros Hne; apply Hne; congruence).
  rewrite Ha, Hb, Hc. cbn. split_and!; [done..|lia].
Qed.

Lemma invalid_date_breaks_consistency_witness :
  let a := mkTodo "1" "write" None None "todo" "high" (Some 10%Z) in
  let b := mkTodo "2" "read" None None "todo" "high" None in
  let c := mkTodo "3" "sing" None None "todo" "high" (Some 20%Z) in
  SortCompare compareTodos a b = 0%Z ∧
  SortCompare compareTodos b c = 0%Z ∧
  (0 < SortCompare compareTodos a c)%Z.
Proof.
  cbn zeta.
  apply (invalid_date_breaks_consistency
           (mkTodo "1" "write" None None "todo" "high" (Some 10%Z))
           (mkTodo "2" "read" None None "todo" "high" None)
           (mkTodo "3" "sing" None None "todo" "high" (Some 20%Z)) 10 20);
    [reflexivity..|lia].
Defined.

Section SortFacts.
Context {A : Type} (cmp : A → A → option Z).

Lemma insert_sorted_perm x l : insert_sorted cmp x l ≡ₚ x :: l.
Proof.
  induction l as [|y l IH]; cbn; [done|].
  case_decide; [done|]. rewrite IH. apply Permutation_swap.
Qed.

Lemma sort_perm l : sort cmp l ≡ₚ l.
Proof.
  induction l as [|x l IH]; cbn; [done|].
  fold (sort cmp l). by rewrite insert_sorted_perm, IH.
Qed.

Lemma insert_sorted_filter (P : A → Prop) `{!∀ x, Decision (P x)} x l :
  (∀ y, y ∈ l → (0 < SortCompare cmp x y)%Z → P x → ¬ P y) →
  filter P (insert_sorted cmp x l) = filter P (x :: l).
Proof.
  induction l as [|y l IH]; intros Hpass; [done|].
  cbn [insert_sorted]. case_decide as Hle; [done|].
  rewrite (filter_cons _ y (insert_sorted cmp x l)).
  rewrite IH by (intros z Hz; apply Hpass; by right).
  rewrite (filter_cons _ x (y :: l)), (filter_cons _ x l), (filter_cons _ y l).
  destruct (decide (P x)) as [Hx|Hx]; [|done].
  assert (¬ P y) as Hy by (apply Hpass; [by left|lia|done]).
  by rewrite !decide_False by done.
Qed.

End SortFacts.

Lemma insert_sorted_sorted x l :
  is_Some (sort_key x) → Forall (λ t, is_Some (sort_key t)) l →
  StronglySorted precedes l →
  StronglySorted precedes (insert_sorted compareTodos x l).
Proof.
  intros Hx Hl Hs. induction Hs as [|y l Hs IH Hy]; cbn.
  - repeat constructor.
  - apply Forall_cons in Hl as [Hky Hl].
    case_decide as Hle.
    + apply SortCompare_precedes in Hle; [|done..].
      constructor; [by constructor|]. constructor; [done|].
      eapply Forall_impl; [apply Forall_and; split; [exact Hy|exact Hl]|].
      intros z [Hyz Hz]. cbn in Hyz, Hz.
      apply SortCompare_precedes; [done..|].
      apply SortCompare_precedes in Hyz; [|done..].
      apply SortCompare_precedes in Hle; [|done..].
      by apply (SortCompare_trans x y z).
    + constructor; [by apply IH|].
      rewrite insert_sorted_perm. constructor; [|done].
      apply SortCompare_precedes; [done..|].
      assert (SortCompare compareTodos y x = - SortCompare compareTodos x y)%Z
        by by apply SortCompare_antisym.
      lia.
Qed.

(** X17. Sorting todos with known priorities and valid dates rearranges
    them (nothing is lost or duplicated) so that a todo of a higher
    priority comes first and, within a priority, a newer one comes first;
    todos of the same priority and time keep the order they had. *)
Theorem sort_by_priority_then_date (todos : list Todo) :
  Forall (λ t, is_Some (sort_key t)) todos →
  let sorted := sort compareTodos todos in
  sorted ≡ₚ todos ∧
  StronglySorted precedes sorted ∧
  (∀ k, filter (λ t, sort_key t = Some k) sorted =
        filter (λ t, sort_key t = Some k) todos).
Proof.
  intros Hv. cbn zeta. split_and!.
  - apply sort_perm.
  - induction Hv as [|x l Hx Hl IH]; [constructor|].
    cbn. fold (sort compareTodos l).
    apply insert_sorted_sorted; [done| |done].
    by rewrite sort_perm.
  - intros [r d]. induction Hv as [|x l Hx Hl IH]; [done|].
    cbn [sort foldr]. fold (sort compareTodos l).
    rewrite insert_sorted_filter.
    + by rewrite !(filter_cons _ x), IH.
    + intros y Hy Hlt Hkx Hky.
      rewrite (SortCompare_keys x y r d r d) in Hlt by done.
      rewrite decide_True in Hlt by done. lia.
Qed.

Lemma sort_by_priority_then_date_witness :
  let a := mkTodo "1" "write" None None "todo" "low" (Some 10%Z) in
  let b := mkTodo "2" "read" None None "done" "high" (Some 20%Z) in
  sort compareTodos [a; b] ≡ₚ [a; b] ∧
  StronglySorted precedes (sort compareTodos [a; b]).
Proof.
  cbn zeta.
  destruct (sort_by_priority_then_date
              [mkTodo "1" "write" None None "todo" "low" (Some 10%Z);
               mkTodo "2" "read" None None "done" "high" (Some 20%Z)])
    as (H1 & H2 & _).
  - repeat constructor; by eexists.
  - split; [exact H1|exact H2].
Defined.

(** ** Lookup *)

Lemma includes_empty s : includes s EmptyString = true.
Proof. by destruct s. Qed.

(** X18. The lookup returns a todo of the list; when a todo has the
    requested id the title is not looked at; and an empty title finds
    nothing, like an absent one, although every title includes the empty
    string. *)
Theorem findTodo_id_before_title
    (toLowerCase : string → string) (todos : list Todo)
    (todoId title' : option string) :
  (∀ t, findTodo toLowerCase todos todoId title' = Some t → t ∈ todos) ∧
  ((∃ t, t ∈ todos ∧ Some (id t) = todoId) →
   findTodo toLowerCase todos todoId title' =
   find (λ t, bool_decide (Some (id t) = todoId)) todos) ∧
  findTodo toLowerCase todos todoId (Some EmptyString) =
  findTodo toLowerCase todos todoId None ∧
  (∀ s, includes s EmptyString = true).
Proof.
  split_and!.
  - intros t. unfold findTodo.
    destruct (bool_decide _ && truthy title'); intros Hf%find_some;
      apply list_elem_of_In, Hf.
  - intros (t & Hin & Hid). unfold findTodo.
    destruct (find _ todos) as [u|] eqn:Hf; [done|].
    exfalso. apply list_elem_of_In in Hin.
    pose proof (find_none _ _ Hf t Hin) as Hn. cbn in Hn.
    by apply bool_decide_eq_false in Hn.
  - unfold findTodo. cbn. by rewrite !andb_false_r.
  - apply includes_empty.
Qed.

(** ** Filters *)

Section FilterFacts.
Variable toLowerCase : string → string.

Lemma filterTodos_elem_of status' priority' search todos t :
  t ∈ filterTodos toLowerCase status' priority' search todos ↔
  t ∈ todos ∧
  (truthy status' = true → Some (status t) = status') ∧
  (truthy priority' = true → Some (priority t) = priority') ∧
  (truthy search = true →
   matches_search toLowerCase (toLowerCase (default EmptyString search)) t = true).
Proof.
  unfold filterTodos.
  destruct (truthy status'), (truthy priority'), (truthy search);
    rewrite ?list_elem_of_filter, ?Is_true_true; intuition congruence.
Qed.

Lemma filterTodos_sublist status' priority' search todos :
  filterTodos toLowerCase status' priority' search todos `sublist_of` todos.
Proof.
  unfold filterTodos.
  destruct (truthy status'), (truthy priority'), (truthy search);
    repeat (etrans; [apply sublist_filter; apply _|]); done.
Qed.

Lemma filter_id_Forall {A} (P : A → Prop) `{!∀ x, Decision (P x)} l :
  Forall P l → filter P l = l.
Proof.
  induction 1 as [|x l Hx Hl IH]; [done|].
  by rewrite filter_cons_True, IH.
Qed.

End FilterFacts.

(** X19. The filters keep the todos in their order and add none; a todo
    is kept exactly when it passes every filter whose argument is given
    and not empty; filtering a second time with the same arguments changes
    nothing; and without arguments the list is returned as it is. *)
Theorem filterTodos_selects
    (toLowerCase : string → string) (status' priority' search : option string)
    (todos : list Todo) :
  let filtered := filterTodos toLowerCase status' priority' search todos in
  filtered `sublist_of` todos ∧
  (∀ t, t ∈ filtered ↔
     t ∈ todos ∧
     (truthy status' = true → Some (status t) = status') ∧
     (truthy priority' = true → Some (priority t) = priority') ∧
     (truthy search = true →
      matches_search toLowerCase
        (toLowerCase (default EmptyString search)) t = true)) ∧
  filterTodos toLowerCase status' priority' search filtered = filtered ∧
  filterTodos toLowerCase None (Some EmptyString) None todos = todos.
Proof.
  cbn zeta. split_and!.
  - apply filterTodos_sublist.
  - intros t. apply filterTodos_elem_of.
  - set (filtered := filterTodos toLowerCase status' priority' search todos).
    assert (Forall (λ t,
      (truthy status' = true → Some (status t) = status') ∧
      (truthy priority' = true → Some (priority t) = priority') ∧
      (truthy search = true →
       matches_search toLowerCase
         (toLowerCase (default EmptyString search)) t = true)) filtered) as Hall.
    { apply Forall_forall. intros t Ht. by apply filterTodos_elem_of in Ht as [_ ?]. }
    clearbody filtered.
    assert (truthy status' = true →
            filter (λ t, Some (status t) = status') filtered = filtered) as H1.
    { intros E. apply filter_id_Forall.
      eapply Forall_impl; [exact Hall|]. cbn. intros t (H & _). auto. }
    assert (truthy priority' = true →
            filter (λ t, Some (priority t) = priority') filtered = filtered) as H2.
    { intros E. apply filter_id_Forall.
      eapply Forall_impl; [exact Hall|]. cbn. intros t (_ & H & _). auto. }
    assert (truthy search = true →
            filter (λ t : Todo, matches_search toLowerCase
                      (toLowerCase (default EmptyString search)) t) filtered
            = filtered) as H3.
    { intros E. apply filter_id_Forall.
      eapply Forall_impl; [exact Hall|]. cbn. intros t (_ & _ & H).
      apply Is_true_true. auto. }
    unfold filterTodos.
    destruct (truthy status'), (truthy priority'), (truthy search);
      rewrite ?H1, ?H2, ?H3 by done; done.
  - done.
Qed.
